(** * Todo-App: the task list manager and the stopwatch of [src/App.tsx]

    The component keeps its state in React hooks and talks to one remote
    table through the Supabase client.  The development below embeds

    - JavaScript strings as sequences of UTF-16 code units, with
      [String.prototype.trim], [padStart] and the decimal [toString] of a
      non-negative integer;
    - the hook state as a record [AppState];
    - the four asynchronous handlers ([fetchTodos], [addTodo],
      [toggleComplete], [removeTodo]) as programs over the effects they
      perform: a query awaited from the remote store, a line written with
      [console.error], a reading of the wall clock, an uncaught
      [TypeError];
    - the stopwatch buttons and its one-second tick as state transformers.  *)

From Stdlib Require Import ZArith NArith Lia String Ascii.
From stdpp Require Import base option list sorting.
From Equations Require Import Equations.

Local Open Scope Z_scope.

(** ** JavaScript strings *)

Module JsString.

(** A string value is its sequence of UTF-16 code units. *)
Definition t : Type := list N.

(** The code units of an ASCII literal of the source. *)
Definition lit (s : string) : t :=
  List.map N_of_ascii (list_ascii_of_string s).

(** WhiteSpace and LineTerminator code points of ECMAScript, the ones
    [trim] strips: TAB, LF, VT, FF, CR, SP, NBSP, the Unicode space
    separators, LS, PS and the byte order mark. *)
Definition is_white_space (c : N) : bool :=
  ((9 <=? c) && (c <=? 13) ||
   (c =? 32) || (c =? 160) || (c =? 5760) ||
   (8192 <=? c) && (c <=? 8202) ||
   (c =? 8232) || (c =? 8233) || (c =? 8239) || (c =? 8287) ||
   (c =? 12288) || (c =? 65279))%N.

Fixpoint trimStart (s : t) : t :=
  match s with
  | c :: s' => if is_white_space c then trimStart s' else s
  | [] => []
  end.

Definition trimEnd (s : t) : t := rev (trimStart (rev s)).

(** [s.trim()] *)
Definition trim (s : t) : t := trimEnd (trimStart s).

(** [s.padStart(n, c)] for a one-unit filler [c]. *)
Definition padStart (n : nat) (c : N) (s : t) : t :=
  replicate (n - length s) c ++ s.

Definition digit (d : N) : N := (48 + d)%N.

(** The decimal digits of a positive integer, most significant first,
    in front of [acc]. *)
Equations digits (n : N) (acc : t) : t by wf (N.to_nat n) lt :=
  digits n acc with N.eq_dec n 0%N := {
    | left _ => acc
    | right _ => digits (n / 10)%N (digit (n mod 10)%N :: acc) }.
Next Obligation.
  assert (n / 10 < n)%N by (apply N.div_lt; lia). lia.
Qed.

(** [n.toString()] for an integer [n] of magnitude below 10^21, where
    the result is the plain decimal numeral. *)
Definition toString (n : Z) : t :=
  match n with
  | Z0 => [digit 0]
  | Zpos p => digits (Npos p) []
  | Zneg p => 45%N :: digits (Npos p) []
  end.

(** What a decimal numeral denotes; used to read results back. *)
Definition is_digit (c : N) : Prop := (48 <= c <= 57)%N.

Definition value (s : t) : Z :=
  fold_left (fun a c => 10 * a + (Z.of_N c - 48)) s 0.

End JsString.

(** ** The data model *)

(** [type Todo], a row of the remote table. *)
Module Todo.
Record t : Type := mk {
  id : Z;
  text : JsString.t;
  description : JsString.t;
  completed : bool;
  time : JsString.t
}.
End Todo.

(** The [useState] cells of [App].  An element of [todos] is [None] where
    the JavaScript array holds [undefined]; the declared type [Todo[]]
    promises there is none (see [well_typed]).  The clock cell
    [currentTime] is only displayed and is left out. *)
Record AppState : Type := mkApp {
  todos : list (option Todo.t);
  input : JsString.t;
  description : JsString.t;
  darkMode : bool;
  stopwatchTime : Z;
  isRunning : bool
}.

Definition initial : AppState :=
  {| todos := []; input := []; description := []; darkMode := true;
     stopwatchTime := 0; isRunning := false |}.

Definition setTodos (v : list (option Todo.t)) (st : AppState) : AppState :=
  {| todos := v; input := input st; description := description st;
     darkMode := darkMode st; stopwatchTime := stopwatchTime st;
     isRunning := isRunning st |}.

Definition setInput (v : JsString.t) (st : AppState) : AppState :=
  {| todos := todos st; input := v; description := description st;
     darkMode := darkMode st; stopwatchTime := stopwatchTime st;
     isRunning := isRunning st |}.

Definition setDescription (v : JsString.t) (st : AppState) : AppState :=
  {| todos := todos st; input := input st; description := v;
     darkMode := darkMode st; stopwatchTime := stopwatchTime st;
     isRunning := isRunning st |}.

Definition setDarkMode (v : bool) (st : AppState) : AppState :=
  {| todos := todos st; input := input st; description := description st;
     darkMode := v; stopwatchTime := stopwatchTime st;
     isRunning := isRunning st |}.

Definition setStopwatchTime (v : Z) (st : AppState) : AppState :=
  {| todos := todos st; input := input st; description := description st;
     darkMode := darkMode st; stopwatchTime := v;
     isRunning := isRunning st |}.

Definition setIsRunning (v : bool) (st : AppState) : AppState :=
  {| todos := todos st; input := input st; description := description st;
     darkMode := darkMode st; stopwatchTime := stopwatchTime st;
     isRunning := v |}.

(** Every slot of the array holds a record, as [Todo[]] declares. *)
Definition well_typed (l : list (option Todo.t)) : Prop :=
  Forall is_Some l.

(** ** JavaScript arrays *)

(** [a[i]] for an integer [i]: [undefined] outside the array. *)
Definition at_index {A} (a : list (option A)) (i : Z) : option A :=
  if 0 <=? i then mjoin (a !! Z.to_nat i) else None.

(** [a[i] = v] on a copy of [a]: inside the array the slot is replaced,
    past its end the array grows (the slots in between read [undefined]),
    and a negative [i] names a property, not an element. *)
Definition array_set {A} (a : list (option A)) (i : Z) (v : option A)
  : list (option A) :=
  if i <? 0 then a
  else if decide (Z.to_nat i < length a)%nat then <[Z.to_nat i := v]> a
  else a ++ replicate (Z.to_nat i - length a) None ++ [v].

(** [a.filter((x, i) => p(x, i))], the position counted from [k].  A slot
    holding [undefined] is visited like any other. *)
Fixpoint filter_from {A} (p : A -> Z -> bool) (k : Z) (a : list A) : list A :=
  match a with
  | [] => []
  | x :: a' =>
      if p x k then x :: filter_from p (k + 1) a' else filter_from p (k + 1) a'
  end.

Definition array_filter {A} (p : A -> Z -> bool) (a : list A) : list A :=
  filter_from p 0 a.

(** ** The stopwatch *)

(** [formatStopwatch]: [Math.floor(seconds / 60)] and [seconds % 60] (the
    remainder takes the sign of [seconds]), each printed and padded.
    [seconds] is an integer that a number holds exactly (up to 2^53 in
    magnitude, more than the counter can reach); there the rounded
    quotient has the floor of the exact one, so [Z.div] and [Z.rem] are
    what the two expressions compute. *)
Definition formatStopwatch (seconds : Z) : JsString.t :=
  let m := JsString.padStart 2 48%N (JsString.toString (seconds / 60)) in
  let s := JsString.padStart 2 48%N (JsString.toString (Z.rem seconds 60)) in
  m ++ JsString.lit ":" ++ s.

(** The Start, Pause and Reset buttons. *)
Definition start (st : AppState) : AppState := setIsRunning true st.

Definition pause (st : AppState) : AppState := setIsRunning false st.

Definition reset (st : AppState) : AppState :=
  setStopwatchTime 0 (setIsRunning false st).

(** One firing of the interval that exists while [isRunning] holds. *)
Definition tick (st : AppState) : AppState :=
  if isRunning st then setStopwatchTime (stopwatchTime st + 1) st else st.

(** ** The remote store, as the handlers see it *)

(** The object given to [insert]: a row without its identifier. *)
Record NewTodo : Type := mkNew {
  new_text : JsString.t;
  new_description : JsString.t;
  new_completed : bool;
  new_time : JsString.t
}.

(** The four queries built on [supabase.from('todos')]. *)
Inductive Request : Type :=
| Select (column : string) (ascending : bool)
    (* .select('*').order(column, { ascending }) *)
| Insert (rows : list NewTodo)
    (* .insert(rows).select() *)
| Update (completed : bool) (id : Z)
    (* .update({ completed }).eq('id', id).select() *)
| Delete (id : Z).
    (* .delete().eq('id', id) *)

(** The awaited [{ data, error }]: either [error] is an object with a
    [message] and [data] is [null], or [error] is [null] and [data] holds
    the selected rows (none for [Delete], which selects nothing). *)
Inductive Response : Type :=
| Failure (message : JsString.t)
| Success (data : list Todo.t).

(** A remote store answers a query and moves to its next state. *)
Class Backend (Store : Type) : Type :=
  respond : Request -> Store -> Response * Store.

(** ** Handlers as programs over their effects *)

Inductive Prog (A : Type) : Type :=
| Ret (a : A)
| Await (q : Request) (k : Response -> Prog A)
| LocaleNow (k : JsString.t -> Prog A)
    (* new Date().toLocaleString() *)
| ConsoleError (label message : JsString.t) (k : Prog A)
| TypeError.
    (* a property read on [undefined]; nothing catches it *)

Arguments Ret {A} a.
Arguments Await {A} q k.
Arguments LocaleNow {A} k.
Arguments ConsoleError {A} label message k.
Arguments TypeError {A}.

(** [fetchTodos], run once when the component mounts. *)
Definition fetchTodos (st : AppState) : Prog AppState :=
  Await (Select "id" false) (fun r =>
    match r with
    | Failure message =>
        ConsoleError (JsString.lit "Fetch error:") message (Ret st)
    | Success data => Ret (setTodos (Some <$> data) st)
    end).

(** The row [addTodo] submits. *)
Definition new_row (st : AppState) (time : JsString.t) : NewTodo :=
  {| new_text := JsString.trim (input st);
     new_description := JsString.trim (description st);
     new_completed := false;
     new_time := time |}.

Definition addTodo (st : AppState) : Prog AppState :=
  if decide (JsString.trim (input st) <> []) then
    LocaleNow (fun time =>
    Await (Insert [new_row st time]) (fun r =>
      match r with
      | Failure message =>
          ConsoleError (JsString.lit "Insert error:") message (Ret st)
      | Success data =>
          Ret (setDescription []
                 (setInput [] (setTodos ((Some <$> data) ++ todos st) st)))
      end))
  else Ret st.

(** [toggleComplete]: [todo.completed] is read while the query is built,
    before anything is awaited. *)
Definition toggleComplete (st : AppState) (index : Z) : Prog AppState :=
  match at_index (todos st) index with
  | None => TypeError
  | Some todo =>
      Await (Update (negb (Todo.completed todo)) (Todo.id todo)) (fun r =>
        match r with
        | Failure message =>
            ConsoleError (JsString.lit "Update error:") message (Ret st)
        | Success data =>
            let updatedTodos := array_set (todos st) index (data !! 0%nat) in
            Ret (setTodos updatedTodos st)
        end)
  end.

(** [removeTodo]: likewise [todo.id] is read before the query is awaited. *)
Definition removeTodo (st : AppState) (index : Z) : Prog AppState :=
  match at_index (todos st) index with
  | None => TypeError
  | Some todo =>
      Await (Delete (Todo.id todo)) (fun r =>
        match r with
        | Failure message =>
            ConsoleError (JsString.lit "Delete error:") message (Ret st)
        | Success _ =>
            let updatedTodos :=
              array_filter (fun _ i => negb (i =? index)) (todos st) in
            Ret (setTodos updatedTodos st)
        end)
  end.

(** ** Running a handler *)

(** What surrounds the component: the remote store, the reading of the
    wall clock, the lines written with [console.error] and the queries
    awaited so far, each with its answer. *)
Record World (Store : Type) : Type := mkWorld {
  remote : Store;
  clock : JsString.t;
  console : list (JsString.t * JsString.t);
  trace : list (Request * Response)
}.

Arguments mkWorld {Store} remote clock console trace.
Arguments remote {Store} w.
Arguments clock {Store} w.
Arguments console {Store} w.
Arguments trace {Store} w.

Inductive Outcome (A : Type) : Type :=
| Done (a : A)
| Uncaught.

Arguments Done {A} a.
Arguments Uncaught {A}.

(** The user's actions on the task list. *)
Inductive Action : Type :=
| Load
| Create
| Toggle (index : Z)
| Remove (index : Z).

Section Run.
Context {Store : Type} `{Backend Store}.

Definition answered (q : Request) (r : Response) (s : Store)
  (w : World Store) : World Store :=
  {| remote := s; clock := clock w; console := console w;
     trace := trace w ++ [(q, r)] |}.

Definition logged (label message : JsString.t) (w : World Store)
  : World Store :=
  {| remote := remote w; clock := clock w;
     console := console w ++ [(label, message)]; trace := trace w |}.

Fixpoint run {A} (p : Prog A) (w : World Store) : Outcome A * World Store :=
  match p with
  | Ret a => (Done a, w)
  | Await q k =>
      let '(r, s) := respond q (remote w) in run (k r) (answered q r s w)
  | LocaleNow k => run (k (clock w)) w
  | ConsoleError label message k => run k (logged label message w)
  | TypeError => (Uncaught, w)
  end.

Definition handler (a : Action) (st : AppState) : Prog AppState :=
  match a with
  | Load => fetchTodos st
  | Create => addTodo st
  | Toggle index => toggleComplete st index
  | Remove index => removeTodo st index
  end.

(** One action from start to end; a handler that throws has set no
    state. *)
Definition perform (a : Action) (c : AppState * World Store)
  : AppState * World Store :=
  match run (handler a (fst c)) (snd c) with
  | (Done st, w) => (st, w)
  | (Uncaught, w) => (fst c, w)
  end.

End Run.

(** ** A reference store

    One table in memory that answers the four queries the way the hosted
    one does, or fails every query while [offline].  It stands for the
    remote side in the examples. *)

Module Table.

Record t : Type := mk {
  rows : list Todo.t;
  next_id : Z;
  offline : bool
}.

(** [ORDER BY id], either way. *)
Definition by_id (ascending : bool) : relation Todo.t :=
  fun a b =>
    if ascending then Todo.id a <= Todo.id b else Todo.id b <= Todo.id a.

#[export] Instance by_id_dec ascending a b : Decision (by_id ascending a b).
Proof. unfold by_id. destruct ascending; apply _. Defined.

Definition order (ascending : bool) (l : list Todo.t) : list Todo.t :=
  merge_sort (by_id ascending) l.

Fixpoint assign (k : Z) (news : list NewTodo) : list Todo.t :=
  match news with
  | [] => []
  | n :: news' =>
      {| Todo.id := k; Todo.text := new_text n;
         Todo.description := new_description n;
         Todo.completed := new_completed n; Todo.time := new_time n |}
      :: assign (k + 1) news'
  end.

Definition patch (completed : bool) (id : Z) (r : Todo.t) : Todo.t :=
  if Todo.id r =? id
  then {| Todo.id := Todo.id r; Todo.text := Todo.text r;
          Todo.description := Todo.description r;
          Todo.completed := completed; Todo.time := Todo.time r |}
  else r.

Definition has_id (id : Z) (r : Todo.t) : bool := Todo.id r =? id.

Definition answer (q : Request) (s : t) : Response * t :=
  if offline s then (Failure (JsString.lit "Failed to fetch"), s)
  else
    match q with
    | Select column ascending =>
        if String.eqb column "id"
        then (Success (order ascending (rows s)), s)
        else (Failure (JsString.lit "column does not exist"), s)
    | Insert news =>
        let added := assign (next_id s) news in
        (Success added,
         {| rows := rows s ++ added;
            next_id := next_id s + Z.of_nat (length news);
            offline := false |})
    | Update completed id =>
        let rows' := patch completed id <$> rows s in
        (Success (List.filter (has_id id) rows'),
         {| rows := rows'; next_id := next_id s; offline := false |})
    | Delete id =>
        (Success [],
         {| rows := List.filter (fun r => negb (has_id id r)) (rows s);
            next_id := next_id s; offline := false |})
    end.

End Table.

#[export] Instance table_backend : Backend Table.t := Table.answer.

(** What the store promises for a mutation it reports as done: the
    inserted rows come back with the submitted fields, the updated row
    comes back with the requested flag. *)
Definition stored_as (n : NewTodo) (r : Todo.t) : Prop :=
  Todo.text r = new_text n /\ Todo.description r = new_description n /\
  Todo.completed r = new_completed n /\ Todo.time r = new_time n.

Definition echoes (q : Request) (data : list Todo.t) : Prop :=
  match q with
  | Select _ _ => True
  | Insert news => Forall2 stored_as news data
  | Update completed id =>
      exists r, data = [r] /\ Todo.id r = id /\ Todo.completed r = completed
  | Delete _ => True
  end.

(** Identifiers in descending order, the order [fetchTodos] asks for:
    no row has a larger [id] than a row before it. *)
Definition descending (l : list Todo.t) : Prop :=
  forall i j a b, (i < j)%nat -> l !! i = Some a -> l !! j = Some b ->
                  Todo.id b <= Todo.id a.

(** The label each handler gives [console.error]. *)
Definition error_label (a : Action) : JsString.t :=
  match a with
  | Load => JsString.lit "Fetch error:"
  | Create => JsString.lit "Insert error:"
  | Toggle _ => JsString.lit "Update error:"
  | Remove _ => JsString.lit "Delete error:"
  end.

(** ** Sample data for the examples *)

Module Sample.

Definition milk : Todo.t :=
  {| Todo.id := 2; Todo.text := JsString.lit "buy milk";
     Todo.description := []; Todo.completed := false;
     Todo.time := JsString.lit "1/5/2026, 9:00:00 AM" |}.

Definition bread : Todo.t :=
  {| Todo.id := 1; Todo.text := JsString.lit "bake bread";
     Todo.description := JsString.lit "rye"; Todo.completed := true;
     Todo.time := JsString.lit "1/4/2026, 6:30:00 PM" |}.

(** The row the store makes of the draft below. *)
Definition mom : Todo.t :=
  {| Todo.id := 3; Todo.text := JsString.lit "call mom";
     Todo.description := JsString.lit "after lunch";
     Todo.completed := false;
     Todo.time := JsString.lit "1/6/2026, 8:15:00 AM" |}.

Definition milk_done : Todo.t := Table.patch true 2 milk.

Definition table : Table.t :=
  {| Table.rows := [bread; milk]; Table.next_id := 3;
     Table.offline := false |}.

Definition online : World Table.t :=
  mkWorld table (JsString.lit "1/6/2026, 8:15:00 AM") [] [].

Definition unreachable : World Table.t :=
  mkWorld {| Table.rows := [bread; milk]; Table.next_id := 3;
             Table.offline := true |}
          (JsString.lit "1/6/2026, 8:15:00 AM") [] [].

(** The state after a load, with a title and a description typed in. *)
Definition draft : AppState :=
  setDescription (JsString.lit "after lunch ")
    (setInput (JsString.lit "  call mom")
       (setTodos [Some milk; Some bread] initial)).

(** The same with only blanks for a title. *)
Definition blank : AppState :=
  setInput [32; 9; 160]%N draft.

End Sample.

(** ** The other handlers, and a session of events *)

(** The theme button: [setDarkMode(!darkMode)]. *)
Definition toggleTheme (st : AppState) : AppState :=
  setDarkMode (negb (darkMode st)) st.

(** What the user and the stopwatch interval can make happen: typing in
    the two inputs ([onChange]), the theme button, the three stopwatch
    buttons, one firing of the stopwatch interval, and the task
    actions. *)
Inductive Event : Type :=
| TypeTitle (value : JsString.t)
| TypeDescription (value : JsString.t)
| ToggleTheme
| PressStart
| PressPause
| PressReset
| Second
| Task (a : Action).

Section Session.
Context {Store : Type} `{Backend Store}.

(** One event from start to end.  A task handler is taken to finish
    before the next event arrives: nothing else happens while it
    awaits. *)
Definition dispatch (c : AppState * World Store) (e : Event)
  : AppState * World Store :=
  match e with
  | TypeTitle value => (setInput value (fst c), snd c)
  | TypeDescription value => (setDescription value (fst c), snd c)
  | ToggleTheme => (toggleTheme (fst c), snd c)
  | PressStart => (start (fst c), snd c)
  | PressPause => (pause (fst c), snd c)
  | PressReset => (reset (fst c), snd c)
  | Second => (tick (fst c), snd c)
  | Task a => perform a c
  end.

Definition session (es : list Event) (c : AppState * World Store)
  : AppState * World Store :=
  foldl dispatch c es.

End Session.

(** ** The common shape of the four handlers *)

(** The query a handler awaits, if it gets that far: [addTodo] stops at a
    blank title, [toggleComplete] and [removeTodo] throw when the slot
    holds no record. *)
Definition request (a : Action) (st : AppState) (now : JsString.t)
  : option Request :=
  match a with
  | Load => Some (Select "id" false)
  | Create =>
      if decide (JsString.trim (input st) <> [])
      then Some (Insert [new_row st now]) else None
  | Toggle index =>
      match at_index (todos st) index with
      | Some todo => Some (Update (negb (Todo.completed todo)) (Todo.id todo))
      | None => None
      end
  | Remove index =>
      match at_index (todos st) index with
      | Some todo => Some (Delete (Todo.id todo))
      | None => None
      end
  end.

(** The state a handler sets when its query is answered with rows. *)
Definition applied (a : Action) (st : AppState) (data : list Todo.t)
  : AppState :=
  match a with
  | Load => setTodos (Some <$> data) st
  | Create =>
      setDescription []
        (setInput [] (setTodos ((Some <$> data) ++ todos st) st))
  | Toggle index =>
      setTodos (array_set (todos st) index (data !! 0%nat)) st
  | Remove index =>
      setTodos (array_filter (fun _ i => negb (i =? index)) (todos st)) st
  end.

(** ** What is rendered *)

(** One entry of the task list: the React [key], the title and whether it
    is struck through, the description paragraph when there is one, the
    line with the time, and what the two click handlers do. *)
Record RowView : Type := mkRow {
  key : Z;
  title : JsString.t;
  struck : bool;
  details : option JsString.t;
  assigned : JsString.t;
  onTitleClick : Event;
  onDeleteClick : Event
}.

Inductive ListView : Type :=
| NoTasksYet
| Rows (rows : list RowView).

(** The parts of the page that depend on the state; the wall clock is
    left out. *)
Record View : Type := mkView {
  themeLabel : JsString.t;
  stopwatchText : JsString.t;
  taskList : ListView
}.

(** The callback of [todos.map]: reading [todo.id] of [undefined]
    throws, and the empty description, being falsy, shows nothing. *)
Definition renderRow (todo : option Todo.t) (index : Z) : option RowView :=
  match todo with
  | None => None
  | Some todo =>
      Some {| key := Todo.id todo;
              title := Todo.text todo;
              struck := Todo.completed todo;
              details := if decide (Todo.description todo = []) then None
                         else Some (Todo.description todo);
              assigned := JsString.lit "Assigned: " ++ Todo.time todo;
              onTitleClick := Task (Toggle index);
              onDeleteClick := Task (Remove index) |}
  end.

(** [a.map((x, i) => f(x, i))] for a callback that may throw, the
    position counted from [k]. *)
Fixpoint map_from {A B} (f : A -> Z -> option B) (k : Z) (a : list A)
  : option (list B) :=
  match a with
  | [] => Some []
  | x :: a' =>
      match f x k with
      | None => None
      | Some y =>
          match map_from f (k + 1) a' with
          | None => None
          | Some ys => Some (y :: ys)
          end
      end
  end.

Definition renderList (l : list (option Todo.t)) : option ListView :=
  if decide (length l = 0%nat) then Some NoTasksYet
  else match map_from renderRow 0 l with
       | None => None
       | Some rows => Some (Rows rows)
       end.

(** The render of [App]; [None] when it throws. *)
Definition render (st : AppState) : option View :=
  match renderList (todos st) with
  | None => None
  | Some l =>
      Some {| themeLabel := if darkMode st then JsString.lit "Light Mode"
                            else JsString.lit "Dark Mode";
              stopwatchText := formatStopwatch (stopwatchTime st);
              taskList := l |}
  end.

(** ** Identifiers, and the local list as a copy of the table *)

(** The [id]s in the list, in order; an [undefined] slot has none. *)
Definition ids (l : list (option Todo.t)) : list Z :=
  Todo.id <$> omap (fun slot => slot) l.

(** The list is ordered newest first: each [id] is larger than all the
    ones after it.  The [id]s are then distinct, as React keys must be. *)
Definition newest_first (l : list (option Todo.t)) : Prop :=
  StronglySorted (fun a b => b < a) (ids l).



(** The number of firings of the stopwatch interval among the events. *)
Definition seconds_fired (es : list Event) : Z :=
  Z.of_nat (length (List.filter
                      (fun e => match e with Second => true | _ => false end)
                      es)).

(** ** What the console should hold *)

(** The label under which the failure of a query is written. *)
Definition request_label (q : Request) : JsString.t :=
  match q with
  | Select _ _ => JsString.lit "Fetch error:"
  | Insert _ => JsString.lit "Insert error:"
  | Update _ _ => JsString.lit "Update error:"
  | Delete _ => JsString.lit "Delete error:"
  end.

(** The failed queries of a trace, each as the line it calls for. *)
Definition failures (t : list (Request * Response))
  : list (JsString.t * JsString.t) :=
  omap (fun qr => match snd qr with
                  | Failure message => Some (request_label (fst qr), message)
                  | Success _ => None
                  end) t.

(** ** More sample data *)

Module Scene.

(** A table that has lost the row with [id] 2 behind the client's back. *)
Definition gone : World Table.t :=
  mkWorld {| Table.rows := [Sample.bread]; Table.next_id := 3;
             Table.offline := false |} [] [] [].

Definition milk_row : RowView :=
  {| key := 2; title := JsString.lit "buy milk"; struck := false;
     details := None;
     assigned := JsString.lit "Assigned: 1/5/2026, 9:00:00 AM";
     onTitleClick := Task (Toggle 0); onDeleteClick := Task (Remove 0) |}.

Definition bread_row : RowView :=
  {| key := 1; title := JsString.lit "bake bread"; struck := true;
     details := Some (JsString.lit "rye");
     assigned := JsString.lit "Assigned: 1/4/2026, 6:30:00 PM";
     onTitleClick := Task (Toggle 1); onDeleteClick := Task (Remove 1) |}.

(** What the draft state shows. *)
Definition view : View :=
  {| themeLabel := JsString.lit "Light Mode";
     stopwatchText := JsString.lit "00:00";
     taskList := Rows [milk_row; bread_row] |}.

(** A visit: the page loads, a task is typed and added, the newest task
    is ticked off, the oldest deleted, the stopwatch runs two seconds. *)
Definition visit : list Event :=
  [Task Load; TypeTitle (JsString.lit " call mom ");
   TypeDescription (JsString.lit "after lunch"); Task Create;
   Task (Toggle 0); Task (Remove 2);
   PressStart; Second; Second; PressPause; Second].

End Scene.

(** * Properties *)

(** ** Strings and numerals on examples *)

Example toString_65 : JsString.toString 65 = JsString.lit "65".
Proof. reflexivity. Qed.

Example toString_neg : JsString.toString (-30) = JsString.lit "-30".
Proof. reflexivity. Qed.

Example trim_spaces :
  JsString.trim (JsString.lit "  buy milk  ") = JsString.lit "buy milk".
Proof. reflexivity. Qed.

Example trim_nbsp : JsString.trim [160; 9; 10; 12288]%N = [].
Proof. reflexivity. Qed.

Example format_negative : formatStopwatch (-30) = JsString.lit "-1:-30".
Proof. reflexivity. Qed.

(** ** Decimal numerals *)

Section Numerals.
Import JsString.
Local Open Scope N_scope.

Lemma digits_zero (acc : JsString.t) : digits 0 acc = acc.
Proof. now simp digits. Qed.

Lemma digits_step (n : N) (acc : JsString.t) :
  n <> 0%N -> digits n acc = digits (n / 10) (digit (n mod 10) :: acc).
Proof.
  intros Hn. rewrite digits_equation_1.
  destruct (N.eq_dec n 0); [contradiction|reflexivity].
Qed.

Lemma digits_acc (n : N) :
  forall acc, digits n acc = digits n [] ++ acc.
Proof.
  induction n as [n IH] using (well_founded_induction N.lt_wf_0).
  intros acc. destruct (N.eq_dec n 0) as [->|Hn].
  - now rewrite !digits_zero.
  - assert (n / 10 < n)%N by (apply N.div_lt; lia).
    rewrite !(digits_step n) by assumption.
    rewrite (IH (n / 10)%N) by assumption.
    rewrite (IH (n / 10)%N ltac:(assumption) [_]).
    now rewrite <- app_assoc.
Qed.

Lemma digits_snoc (n : N) :
  n <> 0%N -> digits n [] = digits (n / 10) [] ++ [digit (n mod 10)].
Proof. intros Hn. rewrite digits_step by assumption. apply digits_acc. Qed.

Lemma value_snoc (s : JsString.t) (c : N) :
  value (s ++ [c]) = (10 * value s + (Z.of_N c - 48))%Z.
Proof. unfold value. now rewrite fold_left_app. Qed.

Lemma digits_value (n : N) : value (digits n []) = Z.of_N n.
Proof.
  induction n as [n IH] using (well_founded_induction N.lt_wf_0).
  destruct (N.eq_dec n 0) as [->|Hn].
  - now rewrite digits_zero.
  - assert (n / 10 < n)%N by (apply N.div_lt; lia).
    rewrite digits_snoc, value_snoc, IH by assumption.
    unfold digit. pose proof (N.div_mod n 10 ltac:(lia)). lia.
Qed.

Lemma digits_are_digits (n : N) : Forall is_digit (digits n []).
Proof.
  induction n as [n IH] using (well_founded_induction N.lt_wf_0).
  destruct (N.eq_dec n 0) as [->|Hn].
  - rewrite digits_zero. constructor.
  - assert (n / 10 < n)%N by (apply N.div_lt; lia).
    rewrite digits_snoc by assumption.
    apply Forall_app. split; [now apply IH|].
    pose proof (N.mod_upper_bound n 10 ltac:(lia)).
    constructor; [|constructor].
    unfold is_digit, digit. generalize dependent (n mod 10). lia.
Qed.

Lemma digits_one (n : N) :
  (0 < n < 10)%N -> digits n [] = [digit n].
Proof.
  intros Hn. rewrite digits_snoc by lia.
  rewrite N.div_small, N.mod_small by lia. now rewrite digits_zero.
Qed.

(** A positive number prints without a leading zero, and with at least
    two digits from ten on. *)
Lemma digits_head (n : N) :
  (0 < n)%N ->
  exists c s, digits n [] = c :: s /\ c <> digit 0 /\
              ((10 <= n)%N -> s <> []) /\ ((100 <= n)%N -> (2 <= length s)%nat).
Proof.
  induction n as [n IH] using (well_founded_induction N.lt_wf_0).
  intros Hn. destruct (N.lt_ge_cases n 10) as [Hlt|Hge].
  - exists (digit n), []. rewrite digits_one by lia.
    repeat split; unfold digit; lia.
  - assert (n / 10 < n)%N by (apply N.div_lt; lia).
    assert (1 <= n / 10)%N
      by (apply (N.div_le_lower_bound n 10 1); lia).
    destruct (IH (n / 10)%N) as (c & s & Hd & Hc & Hs & _); [lia..|].
    exists c, (s ++ [digit (n mod 10)]).
    rewrite digits_snoc, Hd by lia. repeat split; try assumption.
    + intros _. now destruct s.
    + intros H100. rewrite length_app. simpl.
      assert (10 <= n / 10)%N
        by (apply (N.div_le_lower_bound n 10 10); lia).
      specialize (Hs ltac:(assumption)). destruct s; simpl; [easy|lia].
Qed.

Lemma digits_two (n : N) :
  (10 <= n < 100)%N -> length (digits n []) = 2%nat.
Proof.
  intros Hn. rewrite digits_snoc by lia. rewrite length_app. simpl.
  assert (n / 10 < 10)%N by (apply N.Div0.div_lt_upper_bound; lia).
  assert (1 <= n / 10)%N by (apply (N.div_le_lower_bound n 10 1); lia).
  rewrite digits_one by lia. reflexivity.
Qed.

Local Open Scope Z_scope.

(** The numeral of a non-negative integer: digits only, denoting the
    integer, as short as the integer allows. *)
Lemma toString_nonneg (n : Z) :
  0 <= n ->
  Forall is_digit (toString n) /\ value (toString n) = n /\
  (n < 10 -> length (toString n) = 1%nat) /\
  (10 <= n < 100 -> length (toString n) = 2%nat) /\
  (100 <= n ->
   (2 < length (toString n))%nat /\ head (toString n) <> Some (digit 0)).
Proof.
  intros Hn. destruct n as [|p|p]; [|clear Hn|lia].
  - repeat split; try reflexivity; try lia.
    constructor; [unfold is_digit, digit; lia | constructor].
  - unfold toString. split; [apply digits_are_digits|].
    split; [rewrite digits_value; lia|].
    split; [|split].
    + intros Hlt. rewrite digits_one by lia. reflexivity.
    + intros Hlt. apply digits_two. lia.
    + intros Hge.
      destruct (digits_head (Npos p)) as (c & s & -> & Hc & _ & Hlen);
        [lia|].
      specialize (Hlen ltac:(lia)). split; [simpl; lia|].
      simpl. congruence.
Qed.

Lemma value_leading_zero (s : JsString.t) :
  value (digit 0 :: s) = value s.
Proof. reflexivity. Qed.

Lemma padStart_one (c : N) (s : JsString.t) :
  length s = 1%nat -> padStart 2 c s = c :: s.
Proof. unfold padStart. now intros ->. Qed.

Lemma padStart_long (c : N) (s : JsString.t) :
  (2 <= length s)%nat -> padStart 2 c s = s.
Proof.
  unfold padStart. intros Hlen.
  now replace (2 - length s)%nat with 0%nat by lia.
Qed.

(** A printed non-negative integer padded to two places. *)
Lemma padded_nonneg (n : Z) :
  0 <= n ->
  let s := padStart 2 (digit 0) (toString n) in
  Forall is_digit s /\ value s = n /\
  (n < 100 -> length s = 2%nat) /\
  (100 <= n -> (2 < length s)%nat /\ head s <> Some (digit 0)).
Proof.
  intros Hn s.
  destruct (toString_nonneg n Hn) as (Hd & Hv & H1 & H2 & H3).
  destruct (Z.lt_ge_cases n 10) as [Hlt|Hge].
  - subst s. rewrite padStart_one by auto.
    repeat split; try lia.
    + constructor; [unfold is_digit, digit; lia | assumption].
    + now rewrite value_leading_zero.
    + intros _. simpl. now rewrite H1.
  - assert (2 <= length (toString n))%nat.
    { destruct (Z.lt_ge_cases n 100); [rewrite H2|]; lia. }
    subst s. rewrite padStart_long by assumption.
    repeat split; try assumption; try lia; apply H3; lia.
Qed.

End Numerals.

(** ** The stopwatch *)

(** C7.  For every number of elapsed seconds [seconds >= 0],
    [formatStopwatch] yields minutes, a colon and seconds: both parts are
    decimal digits; the seconds part has exactly two digits and denotes
    [seconds mod 60]; the minutes part denotes [seconds / 60], whatever
    its size, has two digits below a hundred minutes and otherwise more,
    without a leading zero.  In particular 0, 65, 3599 and 3600 are
    rendered as 00:00, 01:05, 59:59 and 60:00. *)
Theorem formatStopwatch_mm_ss :
  (forall seconds : Z,
     0 <= seconds ->
     exists mm ss : JsString.t,
       formatStopwatch seconds = mm ++ JsString.lit ":" ++ ss /\
       Forall JsString.is_digit mm /\ Forall JsString.is_digit ss /\
       length ss = 2%nat /\ JsString.value ss = seconds mod 60 /\
       JsString.value mm = seconds / 60 /\
       (length mm = 2%nat \/
        (2 < length mm)%nat /\ head mm <> Some (JsString.digit 0))) /\
  formatStopwatch 0 = JsString.lit "00:00" /\
  formatStopwatch 65 = JsString.lit "01:05" /\
  formatStopwatch 3599 = JsString.lit "59:59" /\
  formatStopwatch 3600 = JsString.lit "60:00".
Proof.
  split; [|repeat split; reflexivity].
  intros seconds Hs.
  assert (Hm : 0 <= seconds / 60) by (apply Z.div_pos; lia).
  assert (Hr : 0 <= Z.rem seconds 60 < 60)
    by (rewrite Z.rem_mod_nonneg by lia; apply Z.mod_pos_bound; lia).
  destruct (padded_nonneg _ Hm) as (Hmd & Hmv & Hm2 & Hm3).
  destruct (padded_nonneg (Z.rem seconds 60) ltac:(lia))
    as (Hsd & Hsv & Hs2 & _).
  exists (JsString.padStart 2 (JsString.digit 0)
            (JsString.toString (seconds / 60))),
         (JsString.padStart 2 (JsString.digit 0)
            (JsString.toString (Z.rem seconds 60))).
  split; [reflexivity|].
  repeat split; try assumption.
  - apply Hs2. lia.
  - rewrite Hsv. apply Z.rem_mod_nonneg; lia.
  - destruct (Z.lt_ge_cases (seconds / 60) 100); [left|right]; auto.
Qed.

Lemma formatStopwatch_mm_ss_witness :
  0 <= 7384 /\
  exists mm ss : JsString.t,
    formatStopwatch 7384 = mm ++ JsString.lit ":" ++ ss /\
    Forall JsString.is_digit mm /\ Forall JsString.is_digit ss /\
    length ss = 2%nat /\ JsString.value ss = 7384 mod 60 /\
    JsString.value mm = 7384 / 60 /\
    (length mm = 2%nat \/
     (2 < length mm)%nat /\ head mm <> Some (JsString.digit 0)).
Proof.
  split; [lia|]. apply (proj1 formatStopwatch_mm_ss 7384). lia.
Defined.

(** C8.  Whatever the state before, the Reset button leaves the stopwatch
    at zero elapsed seconds and stopped. *)
Theorem reset_stops_at_zero (st : AppState) :
  stopwatchTime (reset st) = 0 /\ isRunning (reset st) = false.
Proof. split; reflexivity. Qed.

(** Reset touches nothing but the stopwatch. *)
Lemma reset_frame (st : AppState) :
  todos (reset st) = todos st /\ input (reset st) = input st /\
  description (reset st) = description st /\ darkMode (reset st) = darkMode st.
Proof. repeat split. Qed.

(** While running, [n] ticks add [n] seconds; Pause keeps them. *)
Lemma ticks_while_running (n : nat) (st : AppState) :
  isRunning st = true ->
  stopwatchTime (Nat.iter n tick st) = stopwatchTime st + Z.of_nat n /\
  isRunning (Nat.iter n tick st) = true.
Proof.
  intros Hrun. induction n as [|n [IHt IHr]].
  - split; [change (stopwatchTime st = stopwatchTime st + 0); lia|exact Hrun].
  - rewrite Nat.iter_succ. unfold tick at 1 3. rewrite IHr. simpl.
    split; [lia|assumption].
Qed.

(** ** Arrays *)

Section Arrays.
Context {A : Type}.
Implicit Types (a : list (option A)) (i : Z).

Lemma at_index_Some a i x :
  at_index a i = Some x <->
  0 <= i /\ a !! Z.to_nat i = Some (Some x).
Proof.
  unfold at_index. destruct (Z.leb_spec 0 i) as [Hi|Hi].
  - split.
    + intros Hx. split; [assumption|].
      destruct (a !! Z.to_nat i) as [[y|]|]; simpl in Hx; congruence.
    + intros [_ ->]. reflexivity.
  - split; [discriminate|lia].
Qed.

Lemma at_index_in_bounds a i x :
  at_index a i = Some x -> 0 <= i < Z.of_nat (length a).
Proof.
  intros [Hi Hl]%at_index_Some. apply lookup_lt_Some in Hl. lia.
Qed.

Lemma at_index_out_of_bounds a i :
  ~ 0 <= i < Z.of_nat (length a) -> at_index a i = None.
Proof.
  intros Hout. destruct (at_index a i) as [x|] eqn:E; [|reflexivity].
  apply at_index_in_bounds in E. contradiction.
Qed.

(** In an array without [undefined] every position inside holds a
    value. *)
Lemma at_index_defined a i :
  Forall is_Some a -> 0 <= i < Z.of_nat (length a) ->
  exists x, at_index a i = Some x.
Proof.
  intros Ha Hi.
  destruct (lookup_lt_is_Some_2 a (Z.to_nat i) ltac:(lia)) as [o Ho].
  destruct (proj1 (Forall_lookup _ _) Ha _ _ Ho) as [x ->].
  exists x. apply at_index_Some. split; [lia|assumption].
Qed.

Lemma array_set_inside a i v :
  0 <= i < Z.of_nat (length a) ->
  array_set a i v = <[Z.to_nat i := v]> a.
Proof.
  intros Hi. unfold array_set.
  destruct (Z.ltb_spec i 0); [lia|].
  destruct (decide _); [reflexivity|lia].
Qed.

(** Filtering on the position alone drops the one slot that fails the
    test. *)
Lemma filter_from_drops_one (l : list A) (k index : Z) :
  filter_from (fun _ j => negb (j =? index)) k l =
  if decide (k <= index < k + Z.of_nat (length l))
  then take (Z.to_nat (index - k)) l ++ drop (S (Z.to_nat (index - k))) l
  else l.
Proof.
  revert k. induction l as [|x l IH]; intros k; simpl.
  - destruct (decide _); [lia|reflexivity].
  - rewrite IH. destruct (Z.eqb_spec k index) as [->|Hne]; simpl.
    + rewrite Z.sub_diag. simpl. rewrite drop_0.
      destruct (decide (index + 1 <= index < _)); [lia|].
      destruct (decide _); [reflexivity|lia].
    + destruct (decide (k + 1 <= index < _)) as [Hin|Hout].
      * destruct (decide _); [|lia].
        replace (Z.to_nat (index - k)) with (S (Z.to_nat (index - (k + 1))))
          by lia.
        reflexivity.
      * destruct (decide _); [lia|reflexivity].
Qed.

Lemma array_filter_drops_one (l : list A) (index : Z) :
  0 <= index < Z.of_nat (length l) ->
  array_filter (fun _ j => negb (j =? index)) l =
  take (Z.to_nat index) l ++ drop (S (Z.to_nat index)) l.
Proof.
  intros Hi. unfold array_filter. rewrite filter_from_drops_one.
  rewrite Z.sub_0_r. destruct (decide _); [reflexivity|lia].
Qed.

End Arrays.

(** ** The handlers, against any remote store *)

Section Handlers.
Context {Store : Type} `{Backend Store}.
Implicit Types (st : AppState) (w : World Store) (q : Request) (r : Response).

Lemma trace_grows_not {X} (l : list X) (x : X) : l <> l ++ [x].
Proof.
  intros E. apply (f_equal length) in E. rewrite length_app in E.
  simpl in E. lia.
Qed.

Lemma trace_last {X} (l : list X) (x y : X) : l ++ [x] = l ++ [y] -> x = y.
Proof. intros E. apply app_inv_head in E. congruence. Qed.

(** What each handler does once its guard is passed, by the answer it
    gets. *)
Lemma run_fetchTodos st w :
  run (fetchTodos st) w =
  let q := Select "id" false in
  match respond q (remote w) with
  | (Failure m, s) =>
      (Done st,
       logged (JsString.lit "Fetch error:") m (answered q (Failure m) s w))
  | (Success data, s) =>
      (Done (setTodos (Some <$> data) st), answered q (Success data) s w)
  end.
Proof. simpl. now destruct (respond _ _) as [[m|data] s]. Qed.

Lemma run_addTodo st w :
  JsString.trim (input st) <> [] ->
  run (addTodo st) w =
  let q := Insert [new_row st (clock w)] in
  match respond q (remote w) with
  | (Failure m, s) =>
      (Done st,
       logged (JsString.lit "Insert error:") m (answered q (Failure m) s w))
  | (Success data, s) =>
      (Done (setDescription []
               (setInput [] (setTodos ((Some <$> data) ++ todos st) st))),
       answered q (Success data) s w)
  end.
Proof.
  intros Hne. unfold addTodo. destruct (decide _); [|contradiction].
  simpl. now destruct (respond _ _) as [[m|data] s].
Qed.

Lemma run_toggleComplete st w index todo :
  at_index (todos st) index = Some todo ->
  run (toggleComplete st index) w =
  let q := Update (negb (Todo.completed todo)) (Todo.id todo) in
  match respond q (remote w) with
  | (Failure m, s) =>
      (Done st,
       logged (JsString.lit "Update error:") m (answered q (Failure m) s w))
  | (Success data, s) =>
      (Done (setTodos (array_set (todos st) index (data !! 0%nat)) st),
       answered q (Success data) s w)
  end.
Proof.
  intros Hat. unfold toggleComplete. rewrite Hat.
  simpl. now destruct (respond _ _) as [[m|data] s].
Qed.

Lemma run_removeTodo st w index todo :
  at_index (todos st) index = Some todo ->
  run (removeTodo st index) w =
  let q := Delete (Todo.id todo) in
  match respond q (remote w) with
  | (Failure m, s) =>
      (Done st,
       logged (JsString.lit "Delete error:") m (answered q (Failure m) s w))
  | (Success data, s) =>
      (Done (setTodos
               (array_filter (fun _ i => negb (i =? index)) (todos st)) st),
       answered q (Success data) s w)
  end.
Proof.
  intros Hat. unfold removeTodo. rewrite Hat.
  simpl. now destruct (respond _ _) as [[m|data] s].
Qed.

(** A handler stopped by its guard, or by the missing record, asks the
    store nothing and writes nothing. *)
Lemma run_addTodo_blank st w :
  JsString.trim (input st) = [] -> run (addTodo st) w = (Done st, w).
Proof.
  intros Hblank. unfold addTodo. destruct (decide _); [contradiction|].
  reflexivity.
Qed.

Lemma run_toggleComplete_undefined st w index :
  at_index (todos st) index = None ->
  run (toggleComplete st index) w = (Uncaught, w).
Proof. intros Hat. unfold toggleComplete. now rewrite Hat. Qed.

Lemma run_removeTodo_undefined st w index :
  at_index (todos st) index = None ->
  run (removeTodo st index) w = (Uncaught, w).
Proof. intros Hat. unfold removeTodo. now rewrite Hat. Qed.

(** Every handler awaits at most one query. *)
Lemma run_trace (a : Action) st w :
  trace (snd (run (handler a st) w)) = trace w \/
  exists q r, trace (snd (run (handler a st) w)) = trace w ++ [(q, r)].
Proof.
  destruct a as [| |index|index]; simpl handler.
  - right. rewrite run_fetchTodos. cbv zeta.
    destruct (respond _ _) as [[m|data] s]; eauto.
  - destruct (decide (JsString.trim (input st) = [])) as [Hb|Hb].
    + left. now rewrite run_addTodo_blank.
    + right. rewrite run_addTodo by assumption. cbv zeta.
      destruct (respond _ _) as [[m|data] s]; eauto.
  - destruct (at_index (todos st) index) as [todo|] eqn:Hat.
    + right. rewrite (run_toggleComplete _ _ _ _ Hat). cbv zeta.
      destruct (respond _ _) as [[m|data] s]; eauto.
    + left. now rewrite run_toggleComplete_undefined.
  - destruct (at_index (todos st) index) as [todo|] eqn:Hat.
    + right. rewrite (run_removeTodo _ _ _ _ Hat). cbv zeta.
      destruct (respond _ _) as [[m|data] s]; eauto.
    + left. now rewrite run_removeTodo_undefined.
Qed.

(** The run ended without a query, so the trace cannot have grown. *)
Ltac no_answer Hrun Htr :=
  injection Hrun as <- <-; now apply trace_grows_not in Htr.

(** Split on the answer; the trace tells which one it was. *)
Ltac read_answer Hrun Htr :=
  cbv zeta in Hrun;
  destruct (respond _ _) as [[?m|?data] ?s];
  injection Hrun as <- <-; simpl in Htr; apply trace_last in Htr;
  try discriminate Htr.

Ltac failed_answer Hrun Htr :=
  read_answer Hrun Htr; injection Htr as <- <-; auto.

(** C6.  When the title is empty after trimming, [addTodo] is the
    program that returns at once: run in any world it awaits no query,
    writes nothing, and leaves the task list, and the whole state, as
    they were. *)
Theorem addTodo_blank_title st w :
  JsString.trim (input st) = [] ->
  addTodo st = Ret st /\
  run (addTodo st) w = (Done st, w) /\
  trace (snd (run (addTodo st) w)) = trace w /\
  todos (fst (perform Create (st, w))) = todos st.
Proof.
  intros Hblank. split.
  - unfold addTodo. destruct (decide _); [contradiction|reflexivity].
  - unfold perform. simpl handler. simpl fst. simpl snd.
    now rewrite run_addTodo_blank.
Qed.

(** C2.  When the query awaited by a handler (Create, Toggle, Delete,
    and Load as well) is answered with an error, the handler ends with
    the very state it started from, task list, title and description
    included, and has written the error's message to the console under
    its label. *)
Theorem store_error_leaves_state (a : Action) st w o w' q message :
  run (handler a st) w = (o, w') ->
  trace w' = trace w ++ [(q, Failure message)] ->
  o = Done st /\
  console w' = console w ++ [(error_label a, message)] /\
  fst (perform a (st, w)) = st.
Proof.
  intros Hrun Htr.
  enough (o = Done st /\
          console w' = console w ++ [(error_label a, message)]) as [-> Hc].
  { split; [reflexivity|]. split; [assumption|].
    unfold perform. simpl fst. simpl snd. now rewrite Hrun. }
  destruct a as [| |index|index]; simpl handler in Hrun.
  - rewrite run_fetchTodos in Hrun. failed_answer Hrun Htr.
  - destruct (decide (JsString.trim (input st) = [])) as [Hb|Hb].
    + rewrite run_addTodo_blank in Hrun by assumption. no_answer Hrun Htr.
    + rewrite run_addTodo in Hrun by assumption. failed_answer Hrun Htr.
  - destruct (at_index (todos st) index) as [todo|] eqn:Hat.
    + rewrite (run_toggleComplete _ _ _ _ Hat) in Hrun.
      failed_answer Hrun Htr.
    + rewrite run_toggleComplete_undefined in Hrun by assumption.
      no_answer Hrun Htr.
  - destruct (at_index (todos st) index) as [todo|] eqn:Hat.
    + rewrite (run_removeTodo _ _ _ _ Hat) in Hrun.
      failed_answer Hrun Htr.
    + rewrite run_removeTodo_undefined in Hrun by assumption.
      no_answer Hrun Htr.
Qed.

(** A Toggle the store reports done: the record at [index] is replaced
    by the one row that came back. *)
Lemma toggle_answered st w index todo o w' q data :
  at_index (todos st) index = Some todo ->
  run (toggleComplete st index) w = (o, w') ->
  trace w' = trace w ++ [(q, Success data)] ->
  echoes q data ->
  exists row,
    data = [row] /\
    o = Done (setTodos (<[Z.to_nat index := Some row]> (todos st)) st) /\
    Todo.completed row = negb (Todo.completed todo) /\
    Todo.id row = Todo.id todo.
Proof.
  intros Hat Hrun Htr Hecho.
  rewrite (run_toggleComplete _ _ _ _ Hat) in Hrun. read_answer Hrun Htr.
  injection Htr as <- <-. destruct Hecho as (row & -> & Hid & Hc).
  exists row. rewrite array_set_inside by eauto using at_index_in_bounds.
  auto.
Qed.

Lemma perform_toggle_answered st w index todo q data :
  at_index (todos st) index = Some todo ->
  trace (snd (perform (Toggle index) (st, w))) =
    trace w ++ [(q, Success data)] ->
  echoes q data ->
  exists row,
    fst (perform (Toggle index) (st, w)) =
      setTodos (<[Z.to_nat index := Some row]> (todos st)) st /\
    Todo.completed row = negb (Todo.completed todo).
Proof.
  intros Hat Htr Hecho. unfold perform in *.
  simpl handler in *. simpl fst in *. simpl snd in *.
  destruct (run (toggleComplete st index) w) as [o w'] eqn:Hrun.
  assert (Htr' : trace w' = trace w ++ [(q, Success data)])
    by (destruct o; exact Htr).
  destruct (toggle_answered _ _ _ _ _ _ _ _ Hat Hrun Htr' Hecho)
    as (row & -> & -> & Hc & _).
  exists row. split; [reflexivity|assumption].
Qed.

(** C1.  When the title is not empty after trimming and the store
    reports the insertion done, returning what it stored, [addTodo] ends
    with exactly one more record in the list, in front of all the
    earlier ones; its title is the trimmed title input, its description
    the trimmed description input, and it is not completed. *)
Theorem addTodo_prepends_one st w o w' q data :
  JsString.trim (input st) <> [] ->
  run (addTodo st) w = (o, w') ->
  trace w' = trace w ++ [(q, Success data)] ->
  echoes q data ->
  exists row st',
    o = Done st' /\
    todos st' = Some row :: todos st /\
    length (todos st') = S (length (todos st)) /\
    Todo.text row = JsString.trim (input st) /\
    Todo.completed row = false /\
    Todo.description row = JsString.trim (description st) /\
    Todo.time row = clock w.
Proof.
  intros Hne Hrun Htr Hecho.
  rewrite run_addTodo in Hrun by assumption. read_answer Hrun Htr.
  injection Htr as <- <-. simpl in Hecho.
  apply Forall2_cons_inv_l in Hecho as (row & rest & Hrow & Hrest & ->).
  apply Forall2_nil_inv_l in Hrest as ->.
  destruct Hrow as (Ht & Hd & Hc & Htime).
  simpl in Ht, Hd, Hc, Htime.
  exists row. eexists. split; [reflexivity|]. simpl. repeat split; auto.
Qed.

(** C4.  In a list of records, a Toggle at a position inside the list
    that the store reports done, returning the updated row, puts that
    row, with the [id] of the old record and its flag flipped, at the
    position; the record at every other position, and the length of the
    list, stay as they were. *)
Theorem toggleComplete_replaces_one st w index o w' q data :
  well_typed (todos st) ->
  0 <= index < Z.of_nat (length (todos st)) ->
  run (toggleComplete st index) w = (o, w') ->
  trace w' = trace w ++ [(q, Success data)] ->
  echoes q data ->
  exists todo row st',
    at_index (todos st) index = Some todo /\
    o = Done st' /\
    data !! 0%nat = Some row /\
    at_index (todos st') index = Some row /\
    Todo.completed row = negb (Todo.completed todo) /\
    Todo.id row = Todo.id todo /\
    (forall j : nat, j <> Z.to_nat index -> todos st' !! j = todos st !! j) /\
    length (todos st') = length (todos st).
Proof.
  intros Hty Hin Hrun Htr Hecho.
  destruct (at_index_defined _ _ Hty Hin) as [todo Hat].
  destruct (toggle_answered _ _ _ _ _ _ _ _ Hat Hrun Htr Hecho)
    as (row & -> & -> & Hc & Hid).
  exists todo, row. eexists. repeat split; try reflexivity; try assumption.
  - simpl. apply at_index_Some. split; [lia|].
    apply list_lookup_insert_eq. lia.
  - intros j Hj. simpl. now apply list_lookup_insert_ne.
  - simpl. apply length_insert.
Qed.

(** C3.  In a list of records, two Toggles in a row at the same
    position inside the list, each reported done by the store with the
    updated row returned, leave a record at that position whose
    completion flag is the original one. *)
Theorem toggle_twice_restores_flag st w index q1 d1 q2 d2 :
  well_typed (todos st) ->
  0 <= index < Z.of_nat (length (todos st)) ->
  trace (snd (perform (Toggle index) (st, w))) =
    trace w ++ [(q1, Success d1)] ->
  echoes q1 d1 ->
  trace (snd (perform (Toggle index) (perform (Toggle index) (st, w)))) =
    trace (snd (perform (Toggle index) (st, w))) ++ [(q2, Success d2)] ->
  echoes q2 d2 ->
  exists todo todo2,
    at_index (todos st) index = Some todo /\
    at_index
      (todos (fst (perform (Toggle index) (perform (Toggle index) (st, w)))))
      index = Some todo2 /\
    Todo.completed todo2 = Todo.completed todo.
Proof.
  intros Hty Hin Htr1 He1 Htr2 He2.
  destruct (at_index_defined _ _ Hty Hin) as [todo Hat].
  destruct (perform_toggle_answered _ _ _ _ _ _ Hat Htr1 He1)
    as (row1 & Hst1 & Hc1).
  destruct (perform (Toggle index) (st, w)) as [st1 w1].
  simpl fst in Hst1. simpl snd in Htr2. subst st1.
  assert (Hat1 : at_index
                   (todos (setTodos (<[Z.to_nat index := Some row1]> (todos st))
                             st)) index = Some row1).
  { apply at_index_Some. split; [lia|].
    apply list_lookup_insert_eq. lia. }
  destruct (perform_toggle_answered _ _ _ _ _ _ Hat1 Htr2 He2)
    as (row2 & -> & Hc2).
  exists todo, row2. split; [assumption|]. split.
  - simpl. apply at_index_Some. split; [lia|].
    apply list_lookup_insert_eq. rewrite length_insert. lia.
  - rewrite Hc2, Hc1. apply negb_involutive.
Qed.

(** C5.  In a list of records, a Delete at a position inside the list
    that the store reports done removes the record at that position and
    no other: the records before it keep their places, those after it
    move up by one, and the list is shorter by exactly one. *)
Theorem removeTodo_removes_one st w index o w' q data :
  well_typed (todos st) ->
  0 <= index < Z.of_nat (length (todos st)) ->
  run (removeTodo st index) w = (o, w') ->
  trace w' = trace w ++ [(q, Success data)] ->
  exists todo st',
    at_index (todos st) index = Some todo /\
    q = Delete (Todo.id todo) /\
    o = Done st' /\
    todos st' =
      take (Z.to_nat index) (todos st) ++
      drop (S (Z.to_nat index)) (todos st) /\
    S (length (todos st')) = length (todos st) /\
    (forall j : nat, (j < Z.to_nat index)%nat ->
                     todos st' !! j = todos st !! j) /\
    (forall j : nat, (Z.to_nat index <= j)%nat ->
                     todos st' !! j = todos st !! S j).
Proof.
  intros Hty Hin Hrun Htr.
  destruct (at_index_defined _ _ Hty Hin) as [todo Hat].
  rewrite (run_removeTodo _ _ _ _ Hat) in Hrun. read_answer Hrun Htr.
  injection Htr as <- <-.
  exists todo. eexists. split; [assumption|].
  split; [reflexivity|]. split; [reflexivity|].
  simpl. rewrite array_filter_drops_one by assumption.
  assert (Hlen : length (take (Z.to_nat index) (todos st)) = Z.to_nat index)
    by (rewrite length_take; lia).
  split; [reflexivity|]. split; [|split].
  - rewrite length_app, Hlen, length_drop. lia.
  - intros j Hj. rewrite lookup_app_l by lia. now apply lookup_take_lt.
  - intros j Hj. rewrite lookup_app_r by lia. rewrite Hlen, lookup_drop.
    f_equal. lia.
Qed.

(** C9.  [fetchTodos] awaits one query, for all rows ordered by [id]
    descending.  Answered with rows, it replaces the list by exactly
    those rows in the order they came, so in descending order of [id]
    when the store ordered them so, and writes nothing; answered with an
    error, it writes the message to the console and leaves the state as
    it was, which at mount time means an empty list; it asks only
    once. *)
Theorem fetchTodos_loads_list st w o w' :
  run (fetchTodos st) w = (o, w') ->
  exists r,
    trace w' = trace w ++ [(Select "id" false, r)] /\
    (forall data, r = Success data ->
       o = Done (setTodos (Some <$> data) st) /\
       console w' = console w /\
       (forall k : nat,
          todos (setTodos (Some <$> data) st) !! k = Some <$> data !! k) /\
       (descending data ->
        forall i j a b, (i < j)%nat ->
          at_index (todos (setTodos (Some <$> data) st)) (Z.of_nat i)
            = Some a ->
          at_index (todos (setTodos (Some <$> data) st)) (Z.of_nat j)
            = Some b ->
          Todo.id b <= Todo.id a)) /\
    (forall message, r = Failure message ->
       o = Done st /\
       console w' = console w ++ [(JsString.lit "Fetch error:", message)] /\
       (st = initial -> forall st', o = Done st' -> todos st' = [])).
Proof.
  intros Hrun. rewrite run_fetchTodos in Hrun. cbv zeta in Hrun.
  destruct (respond _ _) as [[m|data] s]; injection Hrun as <- <-;
    eexists; (split; [reflexivity|]); split; intros ? [= <-].
  - repeat split. intros -> st' [= <-]. reflexivity.
  - split; [reflexivity|]. split; [reflexivity|]. split.
    + intros k. simpl. apply list_lookup_fmap.
    + intros Hdesc i j a b Hij Ha Hb. simpl in Ha, Hb.
      apply at_index_Some in Ha as [_ Ha]. apply at_index_Some in Hb as [_ Hb].
      rewrite Nat2Z.id, list_lookup_fmap in Ha, Hb.
      apply fmap_Some in Ha as (a' & Ha & [= <-]).
      apply fmap_Some in Hb as (b' & Hb & [= <-]).
      eauto.
Qed.

(** C10.  Neither [toggleComplete] nor [removeTodo] checks its index.
    In a list of records, an index inside the list finds its record and
    the handler goes on to await its query, about that record's [id];
    any other index finds nothing, and the handler ends at once in an
    uncaught [TypeError], with no query awaited and nothing written. *)
Theorem index_must_be_inside st w index :
  well_typed (todos st) ->
  (0 <= index < Z.of_nat (length (todos st)) ->
   exists todo r1 r2,
     at_index (todos st) index = Some todo /\
     fst (run (toggleComplete st index) w) <> Uncaught /\
     trace (snd (run (toggleComplete st index) w)) =
       trace w ++
       [(Update (negb (Todo.completed todo)) (Todo.id todo), r1)] /\
     fst (run (removeTodo st index) w) <> Uncaught /\
     trace (snd (run (removeTodo st index) w)) =
       trace w ++ [(Delete (Todo.id todo), r2)]) /\
  (~ 0 <= index < Z.of_nat (length (todos st)) ->
   at_index (todos st) index = None /\
   toggleComplete st index = TypeError /\
   removeTodo st index = TypeError /\
   run (toggleComplete st index) w = (Uncaught, w) /\
   run (removeTodo st index) w = (Uncaught, w)).
Proof.
  intros Hty. split.
  - intros Hin. destruct (at_index_defined _ _ Hty Hin) as [todo Hat].
    exists todo.
    rewrite (run_toggleComplete _ _ _ _ Hat), (run_removeTodo _ _ _ _ Hat).
    cbv zeta.
    destruct (respond (Update _ _) _) as [r1 s1].
    destruct (respond (Delete _) _) as [r2 s2].
    exists r1, r2. split; [assumption|].
    destruct r1, r2; repeat split; simpl; discriminate.
  - intros Hout. pose proof (at_index_out_of_bounds _ _ Hout) as Hat.
    unfold toggleComplete, removeTodo. rewrite Hat. repeat split.
Qed.

End Handlers.

(** ** The reference store *)

Section Reference.

#[local] Instance by_id_total ascending : Total (Table.by_id ascending).
Proof. intros a b. unfold Table.by_id. destruct ascending; lia. Qed.

#[local] Instance by_id_trans ascending : Transitive (Table.by_id ascending).
Proof. intros a b c. unfold Table.by_id. destruct ascending; lia. Qed.

Lemma StronglySorted_lookup_lt {A} (R : relation A) (l : list A) :
  StronglySorted R l ->
  forall i j a b, (i < j)%nat -> l !! i = Some a -> l !! j = Some b -> R a b.
Proof.
  induction 1 as [|x l Hl IH Hx]; intros i j a b Hij Ha Hb.
  - discriminate.
  - destruct j as [|j]; [lia|]. simpl in Hb. destruct i as [|i].
    + injection Ha as <-. eapply Forall_lookup_1; eassumption.
    + simpl in Ha. apply (IH i j); [lia|assumption..].
Qed.

(** Ordered by [id] descending, the table's rows come back all, and in
    descending order. *)
Lemma order_descending (l : list Todo.t) :
  descending (Table.order false l) /\ Table.order false l ≡ₚ l.
Proof.
  split; [|apply merge_sort_Permutation].
  intros i j a b Hij Ha Hb.
  apply (StronglySorted_lookup_lt (Table.by_id false) (Table.order false l)
           (StronglySorted_merge_sort _ l) i j a b Hij Ha Hb).
Qed.

(** Loading from a reachable table shows all its rows, newest first. *)
Lemma load_from_table (st : AppState) (w : World Table.t) :
  Table.offline (remote w) = false ->
  exists data,
    todos (fst (perform Load (st, w))) = Some <$> data /\
    data ≡ₚ Table.rows (remote w) /\ descending data.
Proof.
  intros Hon. exists (Table.order false (Table.rows (remote w))).
  destruct (order_descending (Table.rows (remote w))) as [Hd Hp].
  split; [|split; assumption].
  unfold perform.
  change (run (handler Load _) _) with (run (fetchTodos st) w).
  rewrite run_fetchTodos. cbv zeta.
  unfold respond, table_backend, Table.answer. rewrite Hon. reflexivity.
Qed.

(** The reference store keeps the promise [echoes] states. *)
Lemma assign_stored (news : list NewTodo) (k : Z) :
  Forall2 stored_as news (Table.assign k news).
Proof.
  revert k. induction news as [|n news IH]; intros k; simpl.
  - constructor.
  - constructor; [repeat split|apply IH].
Qed.

Lemma table_insert_echoes (s : Table.t) (news : list NewTodo) :
  Table.offline s = false ->
  exists data s',
    respond (Insert news) s = (Success data, s') /\
    echoes (Insert news) data.
Proof.
  intros Hon. unfold respond, table_backend, Table.answer. rewrite Hon.
  eexists _, _. split; [reflexivity|]. apply assign_stored.
Qed.

Lemma patch_id (completed : bool) (id : Z) (r : Todo.t) :
  Todo.id (Table.patch completed id r) = Todo.id r.
Proof. unfold Table.patch. now destruct (_ =? _). Qed.

Lemma no_row_patched (completed : bool) (id : Z) (l : list Todo.t) :
  id ∉ Todo.id <$> l ->
  List.filter (Table.has_id id) (Table.patch completed id <$> l) = [].
Proof.
  induction l as [|x l IH]; intros Hnot; [reflexivity|].
  rewrite fmap_cons in Hnot. apply not_elem_of_cons in Hnot as [Hx Hl].
  simpl. unfold Table.has_id at 1. rewrite patch_id.
  destruct (Z.eqb_spec (Todo.id x) id); [congruence|]. now apply IH.
Qed.

Lemma one_row_patched (completed : bool) (r : Todo.t) (l : list Todo.t) :
  NoDup (Todo.id <$> l) -> r ∈ l ->
  List.filter (Table.has_id (Todo.id r))
    (Table.patch completed (Todo.id r) <$> l) =
  [Table.patch completed (Todo.id r) r].
Proof.
  induction l as [|x l IH]; intros Hnd Hin; [now apply elem_of_nil in Hin|].
  rewrite fmap_cons in Hnd. apply NoDup_cons in Hnd as [Hx Hnd].
  simpl. unfold Table.has_id at 1. rewrite patch_id.
  destruct (Z.eqb_spec (Todo.id x) (Todo.id r)) as [Heq|Hne].
  - assert (r = x) as ->.
    { apply elem_of_cons in Hin as [?|Hin]; [assumption|].
      exfalso. apply Hx. rewrite Heq. now apply list_elem_of_fmap_2. }
    now rewrite no_row_patched.
  - apply elem_of_cons in Hin as [->|Hin]; [congruence|]. now apply IH.
Qed.

Lemma table_update_echoes (s : Table.t) (completed : bool) (r : Todo.t) :
  Table.offline s = false ->
  NoDup (Todo.id <$> Table.rows s) -> r ∈ Table.rows s ->
  exists data s',
    respond (Update completed (Todo.id r)) s = (Success data, s') /\
    echoes (Update completed (Todo.id r)) data.
Proof.
  intros Hon Hnd Hin. unfold respond, table_backend, Table.answer.
  rewrite Hon. eexists _, _. split; [reflexivity|].
  rewrite one_row_patched by assumption.
  eexists. split; [reflexivity|]. split; [apply patch_id|].
  unfold Table.patch. now rewrite Z.eqb_refl.
Qed.

End Reference.

(** ** Scenarios on the reference store *)

(** Load, then a Toggle of the first record that the store echoes. *)
Example scenario_load_then_toggle :
  let loaded := perform Load (initial, Sample.online) in
  todos (fst loaded) = [Some Sample.milk; Some Sample.bread] /\
  todos (fst (perform (Toggle 0) loaded)) =
    [Some Sample.milk_done; Some Sample.bread].
Proof. split; reflexivity. Qed.

(** A Delete that the store fails leaves the list as it was. *)
Example scenario_failing_delete :
  todos (fst (perform (Remove 1) (Sample.draft, Sample.unreachable))) =
    todos Sample.draft /\
  console (snd (perform (Remove 1) (Sample.draft, Sample.unreachable))) =
    [(JsString.lit "Delete error:", JsString.lit "Failed to fetch")].
Proof. split; reflexivity. Qed.

(** Create on the draft: the new row in front, the inputs cleared. *)
Example scenario_create :
  let created := fst (perform Create (Sample.draft, Sample.online)) in
  todos created = [Some Sample.mom; Some Sample.milk; Some Sample.bread] /\
  input created = [] /\ description created = [].
Proof. repeat split. Qed.

(** A store that reports an update done but returns no row leaves
    [undefined] in the list; the next Toggle there throws. *)
Example toggle_without_row :
  let gone : World Table.t :=
    mkWorld {| Table.rows := [Sample.bread]; Table.next_id := 3;
               Table.offline := false |} [] [] [] in
  let after := perform (Toggle 0) (Sample.draft, gone) in
  todos (fst after) = [None; Some Sample.bread] /\
  fst (run (toggleComplete (fst after) 0) (snd after)) = Uncaught.
Proof. split; reflexivity. Qed.

(** ** The theorems at the sample data *)

Lemma addTodo_blank_title_witness :
  JsString.trim (input Sample.blank) = [] /\
  (addTodo Sample.blank = Ret Sample.blank /\
   run (addTodo Sample.blank) Sample.online =
     (Done Sample.blank, Sample.online) /\
   trace (snd (run (addTodo Sample.blank) Sample.online)) =
     trace Sample.online /\
   todos (fst (perform Create (Sample.blank, Sample.online))) =
     todos Sample.blank).
Proof.
  split; [reflexivity|].
  apply (addTodo_blank_title Sample.blank Sample.online). reflexivity.
Defined.

Lemma store_error_leaves_state_witness :
  run (handler (Remove 0) Sample.draft) Sample.unreachable =
    (fst (run (handler (Remove 0) Sample.draft) Sample.unreachable),
     snd (run (handler (Remove 0) Sample.draft) Sample.unreachable)) /\
  trace (snd (run (handler (Remove 0) Sample.draft) Sample.unreachable)) =
    trace Sample.unreachable ++
    [(Delete 2, Failure (JsString.lit "Failed to fetch"))] /\
  (fst (run (handler (Remove 0) Sample.draft) Sample.unreachable) =
     Done Sample.draft /\
   console (snd (run (handler (Remove 0) Sample.draft) Sample.unreachable)) =
     console Sample.unreachable ++
     [(error_label (Remove 0), JsString.lit "Failed to fetch")] /\
   fst (perform (Remove 0) (Sample.draft, Sample.unreachable)) = Sample.draft).
Proof.
  split; [reflexivity|]. split; [reflexivity|].
  apply (store_error_leaves_state (Remove 0) Sample.draft Sample.unreachable
           _ _ (Delete 2) (JsString.lit "Failed to fetch"));
    reflexivity.
Defined.

Lemma addTodo_prepends_one_witness :
  JsString.trim (input Sample.draft) <> [] /\
  run (addTodo Sample.draft) Sample.online =
    (fst (run (addTodo Sample.draft) Sample.online),
     snd (run (addTodo Sample.draft) Sample.online)) /\
  trace (snd (run (addTodo Sample.draft) Sample.online)) =
    trace Sample.online ++
    [(Insert [new_row Sample.draft (clock Sample.online)],
      Success [Sample.mom])] /\
  echoes (Insert [new_row Sample.draft (clock Sample.online)]) [Sample.mom] /\
  exists row st',
    fst (run (addTodo Sample.draft) Sample.online) = Done st' /\
    todos st' = Some row :: todos Sample.draft /\
    length (todos st') = S (length (todos Sample.draft)) /\
    Todo.text row = JsString.trim (input Sample.draft) /\
    Todo.completed row = false /\
    Todo.description row = JsString.trim (description Sample.draft) /\
    Todo.time row = clock Sample.online.
Proof.
  assert (Hne : JsString.trim (input Sample.draft) <> [])
    by (vm_compute; discriminate).
  assert (Hecho : echoes (Insert [new_row Sample.draft (clock Sample.online)])
                    [Sample.mom])
    by (repeat constructor).
  assert (Hrun : run (addTodo Sample.draft) Sample.online =
                   (fst (run (addTodo Sample.draft) Sample.online),
                    snd (run (addTodo Sample.draft) Sample.online)))
    by reflexivity.
  assert (Htr : trace (snd (run (addTodo Sample.draft) Sample.online)) =
                  trace Sample.online ++
                  [(Insert [new_row Sample.draft (clock Sample.online)],
                    Success [Sample.mom])])
    by reflexivity.
  split; [exact Hne|]. split; [exact Hrun|]. split; [exact Htr|].
  split; [exact Hecho|].
  exact (addTodo_prepends_one _ _ _ _ _ _ Hne Hrun Htr Hecho).
Defined.

Lemma toggleComplete_replaces_one_witness :
  well_typed (todos Sample.draft) /\
  0 <= 0 < Z.of_nat (length (todos Sample.draft)) /\
  run (toggleComplete Sample.draft 0) Sample.online =
    (fst (run (toggleComplete Sample.draft 0) Sample.online),
     snd (run (toggleComplete Sample.draft 0) Sample.online)) /\
  trace (snd (run (toggleComplete Sample.draft 0) Sample.online)) =
    trace Sample.online ++ [(Update true 2, Success [Sample.milk_done])] /\
  echoes (Update true 2) [Sample.milk_done] /\
  exists todo row st',
    at_index (todos Sample.draft) 0 = Some todo /\
    fst (run (toggleComplete Sample.draft 0) Sample.online) = Done st' /\
    [Sample.milk_done] !! 0%nat = Some row /\
    at_index (todos st') 0 = Some row /\
    Todo.completed row = negb (Todo.completed todo) /\
    Todo.id row = Todo.id todo /\
    (forall j : nat, j <> Z.to_nat 0 ->
                     todos st' !! j = todos Sample.draft !! j) /\
    length (todos st') = length (todos Sample.draft).
Proof.
  assert (Hty : well_typed (todos Sample.draft))
    by (repeat constructor; eexists; reflexivity).
  assert (Hin : 0 <= 0 < Z.of_nat (length (todos Sample.draft)))
    by (simpl; lia).
  assert (Hecho : echoes (Update true 2) [Sample.milk_done])
    by (eexists; repeat split).
  assert (Hrun : run (toggleComplete Sample.draft 0) Sample.online =
                   (fst (run (toggleComplete Sample.draft 0) Sample.online),
                    snd (run (toggleComplete Sample.draft 0) Sample.online)))
    by reflexivity.
  assert (Htr : trace (snd (run (toggleComplete Sample.draft 0)
                              Sample.online)) =
                  trace Sample.online ++
                  [(Update true 2, Success [Sample.milk_done])])
    by reflexivity.
  split; [exact Hty|]. split; [exact Hin|]. split; [exact Hrun|].
  split; [exact Htr|]. split; [exact Hecho|].
  exact (toggleComplete_replaces_one _ _ _ _ _ _ _ Hty Hin Hrun Htr Hecho).
Defined.

Lemma toggle_twice_restores_flag_witness :
  well_typed (todos Sample.draft) /\
  0 <= 0 < Z.of_nat (length (todos Sample.draft)) /\
  trace (snd (perform (Toggle 0) (Sample.draft, Sample.online))) =
    trace Sample.online ++ [(Update true 2, Success [Sample.milk_done])] /\
  echoes (Update true 2) [Sample.milk_done] /\
  trace (snd (perform (Toggle 0)
                (perform (Toggle 0) (Sample.draft, Sample.online)))) =
    trace (snd (perform (Toggle 0) (Sample.draft, Sample.online))) ++
    [(Update false 2, Success [Sample.milk])] /\
  echoes (Update false 2) [Sample.milk] /\
  exists todo todo2,
    at_index (todos Sample.draft) 0 = Some todo /\
    at_index
      (todos (fst (perform (Toggle 0)
                     (perform (Toggle 0) (Sample.draft, Sample.online)))))
      0 = Some todo2 /\
    Todo.completed todo2 = Todo.completed todo.
Proof.
  assert (Hty : well_typed (todos Sample.draft))
    by (repeat constructor; eexists; reflexivity).
  assert (Hin : 0 <= 0 < Z.of_nat (length (todos Sample.draft)))
    by (simpl; lia).
  assert (He1 : echoes (Update true 2) [Sample.milk_done])
    by (eexists; repeat split).
  assert (He2 : echoes (Update false 2) [Sample.milk])
    by (eexists; repeat split).
  assert (Htr1 : trace (snd (perform (Toggle 0)
                               (Sample.draft, Sample.online))) =
                   trace Sample.online ++
                   [(Update true 2, Success [Sample.milk_done])])
    by reflexivity.
  assert (Htr2 : trace (snd (perform (Toggle 0)
                               (perform (Toggle 0)
                                  (Sample.draft, Sample.online)))) =
                   trace (snd (perform (Toggle 0)
                                 (Sample.draft, Sample.online))) ++
                   [(Update false 2, Success [Sample.milk])])
    by reflexivity.
  split; [exact Hty|]. split; [exact Hin|]. split; [exact Htr1|].
  split; [exact He1|]. split; [exact Htr2|]. split; [exact He2|].
  exact (toggle_twice_restores_flag _ _ _ _ _ _ _ Hty Hin Htr1 He1 Htr2 He2).
Defined.

Lemma removeTodo_removes_one_witness :
  well_typed (todos Sample.draft) /\
  0 <= 1 < Z.of_nat (length (todos Sample.draft)) /\
  run (removeTodo Sample.draft 1) Sample.online =
    (fst (run (removeTodo Sample.draft 1) Sample.online),
     snd (run (removeTodo Sample.draft 1) Sample.online)) /\
  trace (snd (run (removeTodo Sample.draft 1) Sample.online)) =
    trace Sample.online ++ [(Delete 1, Success [])] /\
  exists todo st',
    at_index (todos Sample.draft) 1 = Some todo /\
    Delete 1 = Delete (Todo.id todo) /\
    fst (run (removeTodo Sample.draft 1) Sample.online) = Done st' /\
    todos st' =
      take (Z.to_nat 1) (todos Sample.draft) ++
      drop (S (Z.to_nat 1)) (todos Sample.draft) /\
    S (length (todos st')) = length (todos Sample.draft) /\
    (forall j : nat, (j < Z.to_nat 1)%nat ->
                     todos st' !! j = todos Sample.draft !! j) /\
    (forall j : nat, (Z.to_nat 1 <= j)%nat ->
                     todos st' !! j = todos Sample.draft !! S j).
Proof.
  assert (Hty : well_typed (todos Sample.draft))
    by (repeat constructor; eexists; reflexivity).
  assert (Hin : 0 <= 1 < Z.of_nat (length (todos Sample.draft)))
    by (simpl; lia).
  assert (Hrun : run (removeTodo Sample.draft 1) Sample.online =
                   (fst (run (removeTodo Sample.draft 1) Sample.online),
                    snd (run (removeTodo Sample.draft 1) Sample.online)))
    by reflexivity.
  assert (Htr : trace (snd (run (removeTodo Sample.draft 1) Sample.online)) =
                  trace Sample.online ++ [(Delete 1, Success [])])
    by reflexivity.
  split; [exact Hty|]. split; [exact Hin|]. split; [exact Hrun|].
  split; [exact Htr|].
  exact (removeTodo_removes_one _ _ _ _ _ _ _ Hty Hin Hrun Htr).
Defined.

Lemma fetchTodos_loads_list_witness :
  run (fetchTodos initial) Sample.online =
    (Done (setTodos [Some Sample.milk; Some Sample.bread] initial),
     answered (Select "id" false) (Success [Sample.milk; Sample.bread])
       Sample.table Sample.online) /\
  exists r,
    trace (answered (Select "id" false) (Success [Sample.milk; Sample.bread])
             Sample.table Sample.online) =
      trace Sample.online ++ [(Select "id" false, r)] /\
    (forall data, r = Success data ->
       Done (setTodos [Some Sample.milk; Some Sample.bread] initial) =
         Done (setTodos (Some <$> data) initial) /\
       console (answered (Select "id" false)
                  (Success [Sample.milk; Sample.bread])
                  Sample.table Sample.online) = console Sample.online /\
       (forall k : nat,
          todos (setTodos (Some <$> data) initial) !! k = Some <$> data !! k) /\
       (descending data ->
        forall i j a b, (i < j)%nat ->
          at_index (todos (setTodos (Some <$> data) initial)) (Z.of_nat i)
            = Some a ->
          at_index (todos (setTodos (Some <$> data) initial)) (Z.of_nat j)
            = Some b ->
          Todo.id b <= Todo.id a)) /\
    (forall message, r = Failure message ->
       Done (setTodos [Some Sample.milk; Some Sample.bread] initial) =
         Done initial /\
       console (answered (Select "id" false)
                  (Success [Sample.milk; Sample.bread])
                  Sample.table Sample.online) =
         console Sample.online ++ [(JsString.lit "Fetch error:", message)] /\
       (initial = initial -> forall st',
          Done (setTodos [Some Sample.milk; Some Sample.bread] initial) =
            Done st' -> todos st' = [])).
Proof.
  split; [reflexivity|].
  apply (fetchTodos_loads_list initial Sample.online). reflexivity.
Defined.

Lemma index_must_be_inside_witness :
  well_typed (todos Sample.draft) /\
  (0 <= 1 < Z.of_nat (length (todos Sample.draft)) ->
   exists todo r1 r2,
     at_index (todos Sample.draft) 1 = Some todo /\
     fst (run (toggleComplete Sample.draft 1) Sample.online) <> Uncaught /\
     trace (snd (run (toggleComplete Sample.draft 1) Sample.online)) =
       trace Sample.online ++
       [(Update (negb (Todo.completed todo)) (Todo.id todo), r1)] /\
     fst (run (removeTodo Sample.draft 1) Sample.online) <> Uncaught /\
     trace (snd (run (removeTodo Sample.draft 1) Sample.online)) =
       trace Sample.online ++ [(Delete (Todo.id todo), r2)]) /\
  (~ 0 <= 1 < Z.of_nat (length (todos Sample.draft)) ->
   at_index (todos Sample.draft) 1 = None /\
   toggleComplete Sample.draft 1 = TypeError /\
   removeTodo Sample.draft 1 = TypeError /\
   run (toggleComplete Sample.draft 1) Sample.online =
     (Uncaught, Sample.online) /\
   run (removeTodo Sample.draft 1) Sample.online = (Uncaught, Sample.online)).
Proof.
  assert (Hty : well_typed (todos Sample.draft))
    by (repeat constructor; eexists; reflexivity).
  split; [exact Hty|].
  apply (index_must_be_inside Sample.draft Sample.online 1 Hty).
Defined.

(** * Further properties *)

(** ** Every handler: a guard, one query, one update *)

Section Shape.
Context {Store : Type} `{Backend Store}.
Implicit Types (st : AppState) (w : World Store) (a : Action).

Lemma perform_shape a st w :
  perform a (st, w) =
  match request a st (clock w) with
  | None => (st, w)
  | Some q =>
      match respond q (remote w) with
      | (Failure m, s) =>
          (st, logged (error_label a) m (answered q (Failure m) s w))
      | (Success data, s) =>
          (applied a st data, answered q (Success data) s w)
      end
  end.
Proof.
  unfold perform. simpl fst. simpl snd.
  destruct a as [| |index|index]; unfold request, applied, handler.
  - rewrite run_fetchTodos. cbv zeta.
    now destruct (respond _ _) as [[m|data] s].
  - destruct (decide (JsString.trim (input st) <> [])) as [Hne|Hb].
    + rewrite run_addTodo by assumption. cbv zeta.
      now destruct (respond _ _) as [[m|data] s].
    + rewrite run_addTodo_blank; [reflexivity|].
      destruct (JsString.trim (input st)); [reflexivity|].
      exfalso. apply Hb. discriminate.
  - destruct (at_index (todos st) index) as [todo|] eqn:Hat.
    + rewrite (run_toggleComplete _ _ _ _ Hat). cbv zeta.
      now destruct (respond _ _) as [[m|data] s].
    + now rewrite run_toggleComplete_undefined.
  - destruct (at_index (todos st) index) as [todo|] eqn:Hat.
    + rewrite (run_removeTodo _ _ _ _ Hat). cbv zeta.
      now destruct (respond _ _) as [[m|data] s].
    + now rewrite run_removeTodo_undefined.
Qed.

Lemma session_app (es1 es2 : list Event) (c : AppState * World Store) :
  session (es1 ++ es2) c = session es2 (session es1 c).
Proof. apply foldl_app. Qed.

Lemma session_cons (e : Event) (es : list Event) (c : AppState * World Store) :
  session (e :: es) c = session es (dispatch c e).
Proof. reflexivity. Qed.

Lemma session_snoc (es : list Event) (e : Event) (c : AppState * World Store) :
  session (es ++ [e]) c = dispatch (session es c) e.
Proof. now rewrite session_app. Qed.

End Shape.

(** ** What an event leaves alone *)

Section Frames.
Context {Store : Type} `{Backend Store}.
Implicit Types (st : AppState) (w : World Store) (a : Action).

Lemma applied_frame a st data :
  darkMode (applied a st data) = darkMode st /\
  stopwatchTime (applied a st data) = stopwatchTime st /\
  isRunning (applied a st data) = isRunning st /\
  (a <> Create ->
   input (applied a st data) = input st /\
   description (applied a st data) = description st).
Proof. destruct a; repeat split; intros; congruence. Qed.

Lemma perform_frame a st w :
  darkMode (fst (perform a (st, w))) = darkMode st /\
  stopwatchTime (fst (perform a (st, w))) = stopwatchTime st /\
  isRunning (fst (perform a (st, w))) = isRunning st /\
  (a <> Create ->
   input (fst (perform a (st, w))) = input st /\
   description (fst (perform a (st, w))) = description st).
Proof.
  rewrite perform_shape.
  destruct (request a st (clock w)) as [q|]; [|now repeat split].
  destruct (respond q (remote w)) as [[m|data] s]; [now repeat split|].
  apply applied_frame.
Qed.

(** X15.  A task action, whatever the store answers and whether or not
    it throws, leaves the theme and the stopwatch as they were, and
    unless it is Create also the two inputs; any other event leaves the
    task list as it was, awaits no query and writes nothing. *)
Theorem events_keep_apart (e : Event) st w :
  match e with
  | Task a =>
      darkMode (fst (dispatch (st, w) e)) = darkMode st /\
      stopwatchTime (fst (dispatch (st, w) e)) = stopwatchTime st /\
      isRunning (fst (dispatch (st, w) e)) = isRunning st /\
      (a <> Create ->
       input (fst (dispatch (st, w) e)) = input st /\
       description (fst (dispatch (st, w) e)) = description st)
  | _ =>
      todos (fst (dispatch (st, w) e)) = todos st /\
      snd (dispatch (st, w) e) = w
  end.
Proof.
  destruct e as [v|v| | | | | |a]; try (split; reflexivity).
  - unfold dispatch, tick. simpl. now destruct (isRunning st).
  - apply perform_frame.
Qed.

(** X7.  An action awaits at most one query, and only the one of its
    kind: Load the ordered select, Create the insertion of a single row,
    Toggle and Delete an update or a deletion that names the [id] of the
    record at the given position of the list and of no other. *)
Theorem one_query_of_its_kind a st w :
  exists new,
    trace (snd (perform a (st, w))) = trace w ++ new /\
    (length new <= 1)%nat /\
    forall q r, (q, r) ∈ new ->
      respond q (remote w) = (r, remote (snd (perform a (st, w)))) /\
      match a with
      | Load => q = Select "id" false
      | Create => q = Insert [new_row st (clock w)]
      | Toggle index =>
          exists todo,
            at_index (todos st) index = Some todo /\
            q = Update (negb (Todo.completed todo)) (Todo.id todo)
      | Remove index =>
          exists todo,
            at_index (todos st) index = Some todo /\
            q = Delete (Todo.id todo)
      end.
Proof.
  rewrite perform_shape.
  destruct (request a st (clock w)) as [q0|] eqn:Hq.
  - assert (Hkind : match a with
                    | Load => q0 = Select "id" false
                    | Create => q0 = Insert [new_row st (clock w)]
                    | Toggle index =>
                        exists todo,
                          at_index (todos st) index = Some todo /\
                          q0 = Update (negb (Todo.completed todo))
                                 (Todo.id todo)
                    | Remove index =>
                        exists todo,
                          at_index (todos st) index = Some todo /\
                          q0 = Delete (Todo.id todo)
                    end).
    { destruct a as [| |index|index]; simpl in Hq.
      - congruence.
      - destruct (decide _); congruence.
      - destruct (at_index (todos st) index) as [todo|]; [|discriminate].
        exists todo. split; congruence.
      - destruct (at_index (todos st) index) as [todo|]; [|discriminate].
        exists todo. split; congruence. }
    destruct (respond q0 (remote w)) as [r0 s] eqn:Hr.
    exists [(q0, r0)].
    split; [now destruct r0|]. split; [simpl; lia|].
    intros q r Hin. apply list_elem_of_singleton in Hin as [= -> ->].
    split; [|exact Hkind]. rewrite Hr. now destruct r0.
  - exists []. split; [now rewrite app_nil_r|]. split; [simpl; lia|].
    intros q r Hin. now apply elem_of_nil in Hin.
Qed.

End Frames.

(** ** The stopwatch over a session *)

Section Stopwatch.
Context {Store : Type} `{Backend Store}.
Implicit Types (st : AppState) (w : World Store).

Lemma seconds_pass (n : nat) st w :
  session (replicate n Second) (st, w) = (Nat.iter n tick st, w).
Proof.
  revert st. induction n as [|n IH]; intros st; [reflexivity|].
  rewrite Nat.iter_succ_r. simpl replicate. rewrite session_cons.
  apply IH.
Qed.

Lemma ticks_while_stopped (n : nat) st :
  isRunning st = false -> Nat.iter n tick st = st.
Proof.
  intros Hstop. induction n as [|n IH]; [reflexivity|].
  rewrite Nat.iter_succ, IH. unfold tick. now rewrite Hstop.
Qed.

(** X1.  Start, then [n] firings of the interval, then Pause, then [m]
    more firings: the stopwatch has gained exactly [n] seconds and is
    stopped, whether or not it was running before; the task list and the
    world outside are untouched. *)
Theorem start_seconds_pause (n m : nat) st w :
  let c :=
    session (PressStart :: replicate n Second ++
             PressPause :: replicate m Second) (st, w) in
  stopwatchTime (fst c) = stopwatchTime st + Z.of_nat n /\
  isRunning (fst c) = false /\
  todos (fst c) = todos st /\
  snd c = w.
Proof.
  cbv zeta. rewrite session_cons, session_app. simpl dispatch.
  rewrite seconds_pass, session_cons. simpl dispatch.
  rewrite seconds_pass.
  destruct (ticks_while_running n (start st) eq_refl) as [Ht Hr].
  rewrite ticks_while_stopped by reflexivity. simpl.
  split; [exact Ht|]. split; [reflexivity|]. split; [|reflexivity].
  clear. induction n as [|n IH]; [reflexivity|].
  rewrite Nat.iter_succ. unfold tick at 1.
  now destruct (isRunning _).
Qed.

Lemma dispatch_stopwatch (e : Event) st w :
  0 <= stopwatchTime st ->
  0 <= stopwatchTime (fst (dispatch (st, w) e)) <=
    stopwatchTime st + seconds_fired [e].
Proof.
  intros Hpos. destruct e as [v|v| | | | | |a].
  8: { destruct (perform_frame a st w) as (_ & Ht & _).
       unfold dispatch. rewrite Ht. unfold seconds_fired. simpl. lia. }
  all: unfold seconds_fired; simpl; try lia.
  unfold tick. destruct (isRunning st); simpl; lia.
Qed.

Lemma seconds_fired_cons (e : Event) (es : list Event) :
  seconds_fired (e :: es) = seconds_fired [e] + seconds_fired es.
Proof. unfold seconds_fired. destruct e; simpl; lia. Qed.

(** X2.  Through any sequence of events, against any store, a stopwatch
    that was not negative stays so, and gains no more seconds than the
    interval has fired; from the initial state its reading is between
    zero and the number of firings. *)
Theorem stopwatch_within_seconds_fired (es : list Event) st w :
  0 <= stopwatchTime st ->
  0 <= stopwatchTime (fst (session es (st, w))) <=
    stopwatchTime st + seconds_fired es.
Proof.
  revert st w. induction es as [|e es IH]; intros st w Hpos.
  - unfold seconds_fired. simpl. lia.
  - rewrite session_cons, seconds_fired_cons.
    pose proof (dispatch_stopwatch e st w Hpos) as He.
    destruct (dispatch (st, w) e) as [st1 w1]. simpl fst in He.
    specialize (IH st1 w1 ltac:(lia)). lia.
Qed.

End Stopwatch.

(** X3.  Two different readings of the stopwatch are never shown alike:
    on non-negative seconds [formatStopwatch] is injective. *)
Theorem formatStopwatch_injective (a b : Z) :
  0 <= a -> 0 <= b -> formatStopwatch a = formatStopwatch b -> a = b.
Proof.
  intros Ha Hb Heq.
  assert (Hra : 0 <= Z.rem a 60 < 60)
    by (rewrite Z.rem_mod_nonneg by lia; apply Z.mod_pos_bound; lia).
  assert (Hrb : 0 <= Z.rem b 60 < 60)
    by (rewrite Z.rem_mod_nonneg by lia; apply Z.mod_pos_bound; lia).
  destruct (padded_nonneg (a / 60) ltac:(apply Z.div_pos; lia))
    as (_ & Hma & _).
  destruct (padded_nonneg (b / 60) ltac:(apply Z.div_pos; lia))
    as (_ & Hmb & _).
  destruct (padded_nonneg (Z.rem a 60) ltac:(lia)) as (_ & Hsa & Hla & _).
  destruct (padded_nonneg (Z.rem b 60) ltac:(lia)) as (_ & Hsb & Hlb & _).
  cbv zeta in Hma, Hmb, Hsa, Hsb, Hla, Hlb.
  specialize (Hla ltac:(lia)). specialize (Hlb ltac:(lia)).
  unfold formatStopwatch in Heq. cbv zeta in Heq.
  change 48%N with (JsString.digit 0) in Heq.
  apply app_inj_2 in Heq as [Hm Hs];
    [|rewrite !length_app, Hla, Hlb; reflexivity].
  apply app_inv_head in Hs.
  rewrite Hm in Hma. rewrite Hs in Hsa.
  assert (Hq : a / 60 = b / 60) by congruence.
  assert (Hr : Z.rem a 60 = Z.rem b 60) by congruence.
  rewrite (Z.quot_rem' a 60), (Z.quot_rem' b 60).
  rewrite <- !Z.quot_div_nonneg in Hq by lia. congruence.
Qed.

Lemma formatStopwatch_injective_witness :
  0 <= 59 /\ 0 <= 59 /\ formatStopwatch 59 = formatStopwatch 59 /\ 59 = 59.
Proof.
  split; [lia|]. split; [lia|]. split; [reflexivity|].
  apply (formatStopwatch_injective 59 59); [lia|lia|reflexivity].
Defined.

(** ** Trimming *)

Section Trim.
Import JsString.
Implicit Types (s : JsString.t) (c : N).

Lemma trimStart_split s :
  exists pre,
    s = pre ++ trimStart s /\ Forall (fun c => is_white_space c = true) pre.
Proof.
  induction s as [|c s (pre & Hs & Hpre)]; [now exists []|].
  simpl. destruct (is_white_space c) eqn:Hc.
  - exists (c :: pre). split; [simpl; congruence|now constructor].
  - now exists [].
Qed.

Lemma trimStart_head s c t :
  trimStart s = c :: t -> is_white_space c = false.
Proof.
  induction s as [|c' s IH]; [discriminate|]. simpl.
  destruct (is_white_space c') eqn:Hc; [assumption|congruence].
Qed.

Lemma trimStart_white s :
  Forall (fun c => is_white_space c = true) s -> trimStart s = [].
Proof.
  induction 1 as [|c s Hc _ IH]; [reflexivity|]. simpl. now rewrite Hc.
Qed.

Lemma trimStart_snoc s c :
  is_white_space c = false -> trimStart (s ++ [c]) = trimStart s ++ [c].
Proof.
  intros Hc. induction s as [|c' s IH]; simpl; [now rewrite Hc|].
  now destruct (is_white_space c').
Qed.

Lemma trimEnd_split s :
  exists post,
    s = trimEnd s ++ post /\ Forall (fun c => is_white_space c = true) post.
Proof.
  destruct (trimStart_split (rev s)) as (pre & Hs & Hpre).
  exists (rev pre). split.
  - unfold trimEnd. rewrite <- rev_app_distr, <- Hs. now rewrite rev_involutive.
  - apply Forall_forall. intros c Hc. rewrite list_elem_of_In in Hc.
    apply in_rev in Hc. rewrite <- list_elem_of_In in Hc.
    revert c Hc. now apply Forall_forall.
Qed.

Lemma trimEnd_last s c :
  last (trimEnd s) = Some c -> is_white_space c = false.
Proof.
  unfold trimEnd. destruct (trimStart (rev s)) as [|c' t] eqn:Ht;
    [discriminate|].
  simpl. rewrite last_snoc. intros [= <-]. eapply trimStart_head, Ht.
Qed.

Lemma trimEnd_cons s c :
  is_white_space c = false -> trimEnd (c :: s) = c :: trimEnd s.
Proof.
  intros Hc. unfold trimEnd. simpl. rewrite trimStart_snoc by assumption.
  rewrite rev_app_distr. reflexivity.
Qed.

(** What [trim] returns: the input without a run of white space at
    either end, and nothing else; white space is at neither end of the
    result. *)
Lemma trim_spec s :
  (exists pre post,
     s = pre ++ trim s ++ post /\
     Forall (fun c => is_white_space c = true) pre /\
     Forall (fun c => is_white_space c = true) post) /\
  (forall c, head (trim s) = Some c -> is_white_space c = false) /\
  (forall c, last (trim s) = Some c -> is_white_space c = false).
Proof.
  unfold trim. split; [|split].
  - destruct (trimStart_split s) as (pre & Hs & Hpre).
    destruct (trimEnd_split (trimStart s)) as (post & Ht & Hpost).
    exists pre, post. split; [|split; assumption]. congruence.
  - intros c. destruct (trimStart s) as [|c' t] eqn:Ht; [discriminate|].
    pose proof (trimStart_head _ _ _ Ht) as Hc'.
    rewrite trimEnd_cons by assumption. simpl. congruence.
  - apply trimEnd_last.
Qed.

Lemma trim_blank s :
  trim s = [] <-> Forall (fun c => is_white_space c = true) s.
Proof.
  split.
  - intros Hb. destruct (trim_spec s) as ((pre & post & Hs & Hpre & Hpost) & _).
    rewrite Hb in Hs. rewrite Hs. now apply Forall_app.
  - intros Hw. unfold trim. now rewrite trimStart_white.
Qed.

End Trim.

(** ** More on Create *)

Section Create.
Context {Store : Type} `{Backend Store}.
Implicit Types (st : AppState) (w : World Store).

Lemma create_awaits st w q r :
  trace (snd (perform Create (st, w))) = trace w ++ [(q, r)] ->
  JsString.trim (input st) <> [] /\ q = Insert [new_row st (clock w)] /\
  exists s, respond q (remote w) = (r, s).
Proof.
  rewrite perform_shape. unfold request.
  destruct (decide _) as [Hne|_];
    [|intros Htr; now apply trace_grows_not in Htr].
  destruct (respond _ _) as [r0 s] eqn:Hr.
  intros Htr. assert (Hlast : (Insert [new_row st (clock w)], r0) = (q, r)).
  { destruct r0; simpl in Htr; now apply trace_last in Htr. }
  injection Hlast as <- <-. eauto.
Qed.

(** X4.  The row Create submits is cut out of what was typed: the title
    input is white space, then the submitted title, then white space, and
    likewise the description; the submitted title is not empty; white
    space is at neither end of either; the row is not completed and
    carries the clock's reading. *)
Theorem create_submits_trimmed st w q r :
  trace (snd (perform Create (st, w))) = trace w ++ [(q, r)] ->
  exists row pre post pre' post',
    q = Insert [row] /\
    input st = pre ++ new_text row ++ post /\
    description st = pre' ++ new_description row ++ post' /\
    Forall (fun c => JsString.is_white_space c = true)
      (pre ++ post ++ pre' ++ post') /\
    new_text row <> [] /\
    (forall c, head (new_text row) = Some c \/ last (new_text row) = Some c \/
               head (new_description row) = Some c \/
               last (new_description row) = Some c ->
               JsString.is_white_space c = false) /\
    new_completed row = false /\
    new_time row = clock w.
Proof.
  intros Htr. apply create_awaits in Htr as (Hne & -> & _).
  destruct (trim_spec (input st))
    as ((pre & post & Hs & Hpre & Hpost) & Hhead & Hlast).
  destruct (trim_spec (description st))
    as ((pre' & post' & Hs' & Hpre' & Hpost') & Hhead' & Hlast').
  exists (new_row st (clock w)), pre, post, pre', post'. simpl.
  split; [reflexivity|]. split; [assumption|]. split; [assumption|].
  split; [now rewrite !Forall_app|]. split; [assumption|].
  split; [|split; reflexivity].
  intros c [Hc|[Hc|[Hc|Hc]]]; eauto.
Qed.

(** X5.  Create awaits no query exactly when the title input consists of
    white space only (or of nothing). *)
Theorem create_silent_iff_blank st w :
  trace (snd (perform Create (st, w))) = trace w <->
  Forall (fun c => JsString.is_white_space c = true) (input st).
Proof.
  rewrite <- trim_blank, perform_shape. unfold request.
  destruct (decide _) as [Hne|Hb].
  - split; [|contradiction].
    destruct (respond _ _) as [[m|data] s]; simpl; intros Htr;
      symmetry in Htr; now apply trace_grows_not in Htr.
  - split; [|reflexivity]. intros _.
    destruct (JsString.trim (input st)); [reflexivity|].
    exfalso. apply Hb. discriminate.
Qed.

(** X6.  A Create that the store reports done empties both inputs, so a
    second Create right after it does nothing at all: no query, no new
    record, the same state and the same world. *)
Theorem create_twice_adds_once st w q data :
  trace (snd (perform Create (st, w))) = trace w ++ [(q, Success data)] ->
  input (fst (perform Create (st, w))) = [] /\
  description (fst (perform Create (st, w))) = [] /\
  todos (fst (perform Create (st, w))) = (Some <$> data) ++ todos st /\
  perform Create (perform Create (st, w)) = perform Create (st, w).
Proof.
  intros Htr. pose proof (create_awaits _ _ _ _ Htr) as (Hne & -> & s & Hr).
  rewrite perform_shape in Htr |- *. unfold request in *.
  destruct (decide _) as [_|]; [|contradiction].
  rewrite Hr in *. repeat split; reflexivity.
Qed.

End Create.

Lemma create_submits_trimmed_witness :
  trace (snd (perform Create (Sample.draft, Sample.online))) =
    trace Sample.online ++
    [(Insert [new_row Sample.draft (clock Sample.online)],
      Success [Sample.mom])] /\
  exists row pre post pre' post',
    Insert [new_row Sample.draft (clock Sample.online)] = Insert [row] /\
    input Sample.draft = pre ++ new_text row ++ post /\
    description Sample.draft = pre' ++ new_description row ++ post' /\
    Forall (fun c => JsString.is_white_space c = true)
      (pre ++ post ++ pre' ++ post') /\
    new_text row <> [] /\
    (forall c, head (new_text row) = Some c \/ last (new_text row) = Some c \/
               head (new_description row) = Some c \/
               last (new_description row) = Some c ->
               JsString.is_white_space c = false) /\
    new_completed row = false /\
    new_time row = clock Sample.online.
Proof.
  assert (Htr : trace (snd (perform Create (Sample.draft, Sample.online))) =
                  trace Sample.online ++
                  [(Insert [new_row Sample.draft (clock Sample.online)],
                    Success [Sample.mom])])
    by reflexivity.
  split; [exact Htr|].
  exact (create_submits_trimmed _ _ _ _ Htr).
Defined.

Lemma create_twice_adds_once_witness :
  trace (snd (perform Create (Sample.draft, Sample.online))) =
    trace Sample.online ++
    [(Insert [new_row Sample.draft (clock Sample.online)],
      Success [Sample.mom])] /\
  input (fst (perform Create (Sample.draft, Sample.online))) = [] /\
  description (fst (perform Create (Sample.draft, Sample.online))) = [] /\
  todos (fst (perform Create (Sample.draft, Sample.online))) =
    (Some <$> [Sample.mom]) ++ todos Sample.draft /\
  perform Create (perform Create (Sample.draft, Sample.online)) =
    perform Create (Sample.draft, Sample.online).
Proof.
  assert (Htr : trace (snd (perform Create (Sample.draft, Sample.online))) =
                  trace Sample.online ++
                  [(Insert [new_row Sample.draft (clock Sample.online)],
                    Success [Sample.mom])])
    by reflexivity.
  split; [exact Htr|].
  exact (create_twice_adds_once _ _ _ _ Htr).
Defined.

(** ** Lists of records *)

Section Records.
Implicit Types (l : list (option Todo.t)) (rows : list Todo.t).

Lemma well_typed_fmap rows : well_typed (Some <$> rows).
Proof. apply Forall_fmap, Forall_true. intros r. now exists r. Qed.

Lemma well_typed_rows l : well_typed l -> exists rows, l = Some <$> rows.
Proof.
  induction 1 as [|slot l [r ->] _ [rows ->]]; [now exists []|].
  now exists (r :: rows).
Qed.

Lemma ids_fmap rows : ids (Some <$> rows) = Todo.id <$> rows.
Proof.
  induction rows as [|r rows IH]; [reflexivity|].
  unfold ids in *. rewrite !fmap_cons. cbn. now rewrite IH.
Qed.

Lemma at_index_fmap rows index todo :
  at_index (Some <$> rows) index = Some todo <->
  0 <= index /\ rows !! Z.to_nat index = Some todo.
Proof.
  rewrite at_index_Some, list_lookup_fmap. split; intros [Hi Hl].
  - split; [assumption|]. destruct (rows !! _); simpl in Hl; congruence.
  - split; [assumption|]. now rewrite Hl.
Qed.

Lemma Forall_filter_from {A} (P : A -> Prop) (p : A -> Z -> bool) k
  (a : list A) :
  Forall P a -> Forall P (filter_from p k a).
Proof.
  intros Ha. revert k. induction Ha as [|x a Hx _ IH]; intros k; simpl.
  - constructor.
  - destruct (p x k); [constructor|]; auto.
Qed.

Lemma StronglySorted_delete {A} (R : relation A) (a : list A) (i : nat) :
  StronglySorted R a -> StronglySorted R (delete i a).
Proof.
  intros Ha. revert i. induction Ha as [|x a Ha IH Hx]; intros i.
  - destruct i; constructor.
  - destruct i as [|i]; [exact Ha|]. simpl.
    constructor; [apply IH|now apply Forall_delete].
Qed.

Lemma strictly_sorted_NoDup (a : list Z) :
  StronglySorted (fun x y => y < x) a -> NoDup a.
Proof.
  induction 1 as [|x a _ IH Hx]; constructor; [|assumption].
  intros Hin. rewrite Forall_forall in Hx. specialize (Hx _ Hin). lia.
Qed.

Lemma removed_not_left {A} (a : list A) (i : nat) (x : A) :
  NoDup a -> a !! i = Some x -> x ∉ delete i a.
Proof.
  intros Hnd Hi. apply delete_Permutation in Hi. rewrite Hi in Hnd.
  now apply NoDup_cons in Hnd as [Hx _].
Qed.

End Records.

(** ** Toggle and Delete, whatever the store answers *)

Section AnyAnswer.
Context {Store : Type} `{Backend Store}.
Implicit Types (st : AppState) (w : World Store) (a : Action).

(** X8.  Whatever the store answers, and also when the handler throws, a
    Toggle leaves the list as long as it was and every other position as
    it was; when the store reports it done, the position holds the first
    row of the answer, or [undefined] if the answer has no row. *)
Theorem toggle_touches_one_slot st w index :
  length (todos (fst (perform (Toggle index) (st, w)))) = length (todos st) /\
  (forall j : nat, Z.of_nat j <> index ->
     todos (fst (perform (Toggle index) (st, w))) !! j = todos st !! j) /\
  (forall q data,
     trace (snd (perform (Toggle index) (st, w))) =
       trace w ++ [(q, Success data)] ->
     0 <= index < Z.of_nat (length (todos st)) /\
     todos (fst (perform (Toggle index) (st, w))) !! Z.to_nat index =
       Some (data !! 0%nat)).
Proof.
  rewrite perform_shape. unfold request.
  destruct (at_index (todos st) index) as [todo|] eqn:Hat.
  - pose proof (at_index_in_bounds _ _ _ Hat) as Hin.
    destruct (respond _ _) as [[m|data] s]; simpl.
    + split; [reflexivity|]. split; [reflexivity|].
      intros q data Htr. now apply trace_last in Htr.
    + rewrite array_set_inside by assumption.
      split; [apply length_insert|]. split.
      * intros j Hj. apply list_lookup_insert_ne. lia.
      * intros q data' Htr. apply trace_last in Htr. injection Htr as <- <-.
        split; [assumption|]. apply list_lookup_insert_eq. lia.
  - split; [reflexivity|]. split; [reflexivity|].
    intros q data Htr. now apply trace_grows_not in Htr.
Qed.

(** X9.  A list of records stays a list of records through every
    action, whatever the store answers, with one exception: a Toggle that
    the store reports done without returning a row. *)
Theorem records_stay_records a st w :
  well_typed (todos st) ->
  (forall index q, a = Toggle index ->
     trace (snd (perform a (st, w))) <> trace w ++ [(q, Success [])]) ->
  well_typed (todos (fst (perform a (st, w)))).
Proof.
  intros Hty Hrow. rewrite perform_shape in Hrow |- *.
  destruct (request a st (clock w)) as [q|] eqn:Hq; [|assumption].
  destruct (respond q (remote w)) as [[m|data] s]; [assumption|].
  destruct a as [| |index|index]; simpl.
  - apply well_typed_fmap.
  - apply Forall_app. split; [apply well_typed_fmap|assumption].
  - unfold request in Hq.
    destruct (at_index (todos st) index) as [todo|] eqn:Hat; [|discriminate].
    rewrite array_set_inside by eauto using at_index_in_bounds.
    apply Forall_insert; [assumption|].
    destruct data as [|row data]; [|now exists row].
    now contradiction (Hrow index q eq_refl).
  - now apply Forall_filter_from.
Qed.

(** X10.  In a list of records ordered newest first, a Toggle or a
    Delete, at any position and whatever the store answers provided that
    an update it reports done returns the updated row, leaves a list of
    records ordered newest first.  A Toggle leaves the sequence of [id]s
    as it was; a Delete reported done takes out the [id] of the record at
    the position, which then occurs nowhere in the list. *)
Theorem order_kept_by_toggle_and_delete a st w :
  well_typed (todos st) ->
  newest_first (todos st) ->
  (a <> Load /\ a <> Create) ->
  (forall q data,
     trace (snd (perform a (st, w))) = trace w ++ [(q, Success data)] ->
     echoes q data) ->
  well_typed (todos (fst (perform a (st, w)))) /\
  newest_first (todos (fst (perform a (st, w)))) /\
  (forall index, a = Toggle index ->
     ids (todos (fst (perform a (st, w)))) = ids (todos st)) /\
  (forall index todo q data,
     a = Remove index -> at_index (todos st) index = Some todo ->
     trace (snd (perform a (st, w))) = trace w ++ [(q, Success data)] ->
     ids (todos (fst (perform a (st, w)))) =
       delete (Z.to_nat index) (ids (todos st)) /\
     Todo.id todo ∉ ids (todos (fst (perform a (st, w))))).
Proof.
  intros Hty Hsorted [HnL HnC] Hecho.
  destruct (well_typed_rows _ Hty) as [rows Hrows].
  unfold newest_first in *. rewrite perform_shape in Hecho |- *.
  destruct a as [| |index|index]; try contradiction; unfold request in *.
  - (* Toggle *)
    destruct (at_index (todos st) index) as [todo|] eqn:Hat;
      [|repeat split; auto; discriminate].
    pose proof (at_index_in_bounds _ _ _ Hat) as Hin.
    destruct (respond _ _) as [[m|data] s];
      [repeat split; auto; discriminate|].
    destruct (Hecho _ _ eq_refl) as (row & -> & Hid & _).
    simpl. rewrite array_set_inside by assumption. simpl.
    rewrite Hrows in Hat, Hsorted |- *. apply at_index_fmap in Hat as [_ Hat].
    assert (Hids : Todo.id <$> <[Z.to_nat index := row]> rows =
                   Todo.id <$> rows).
    { rewrite (list_fmap_insert Todo.id), Hid. apply list_insert_id.
      rewrite list_lookup_fmap, Hat. reflexivity. }
    rewrite <- (list_fmap_insert Some), !ids_fmap, Hids.
    rewrite ids_fmap in Hsorted.
    split; [apply well_typed_fmap|]. split; [assumption|].
    split; [reflexivity|discriminate].
  - (* Delete *)
    destruct (at_index (todos st) index) as [todo|] eqn:Hat.
    2: { split; [assumption|]. split; [assumption|]. split; [discriminate|].
         intros ? ? ? ? [= <-] Hat'. congruence. }
    pose proof (at_index_in_bounds _ _ _ Hat) as Hin.
    destruct (respond _ _) as [[m|data] s].
    + split; [assumption|]. split; [assumption|]. split; [discriminate|].
      intros ? ? ? ? _ _ Htr. now apply trace_last in Htr.
    + simpl. rewrite array_filter_drops_one by assumption.
      rewrite <- delete_take_drop, Hrows in *.
      apply at_index_fmap in Hat as [_ Hat].
      rewrite <- (list_fmap_delete Some), !ids_fmap.
      rewrite (list_fmap_delete Todo.id).
      rewrite ids_fmap in Hsorted.
      split; [apply well_typed_fmap|].
      split; [now apply StronglySorted_delete|]. split; [discriminate|].
      intros index' todo' q data' [= <-] Hat' _.
      apply at_index_fmap in Hat' as [_ Hat'].
      split; [reflexivity|].
      apply removed_not_left; [now apply strictly_sorted_NoDup|].
      rewrite list_lookup_fmap, Hat'. reflexivity.
Qed.

(** X11.  In a list of records ordered newest first, a Create that the
    store reports done, returning the stored row, puts the new [id] in
    front of the others; the list is again ordered newest first provided
    the new [id] is larger than every one in the list. *)
Theorem order_kept_by_create st w q data :
  well_typed (todos st) ->
  newest_first (todos st) ->
  trace (snd (perform Create (st, w))) = trace w ++ [(q, Success data)] ->
  echoes q data ->
  exists row,
    data = [row] /\
    ids (todos (fst (perform Create (st, w)))) =
      Todo.id row :: ids (todos st) /\
    well_typed (todos (fst (perform Create (st, w)))) /\
    (Forall (fun k => k < Todo.id row) (ids (todos st)) ->
     newest_first (todos (fst (perform Create (st, w))))).
Proof.
  intros Hty Hsorted Htr Hecho.
  pose proof (create_awaits _ _ _ _ Htr) as (Hne & -> & s & Hr).
  simpl in Hecho.
  apply Forall2_cons_inv_l in Hecho as (row & rest & _ & Hrest & ->).
  apply Forall2_nil_inv_l in Hrest as ->.
  destruct (well_typed_rows _ Hty) as [rows Hrows].
  exists row. split; [reflexivity|].
  rewrite perform_shape. unfold request.
  destruct (decide _) as [_|]; [|contradiction]. rewrite Hr. simpl.
  unfold newest_first in *. rewrite Hrows in *.
  change (Some row :: (Some <$> rows)) with (Some <$> (row :: rows)).
  rewrite !ids_fmap in *. split; [reflexivity|].
  split; [apply well_typed_fmap|]. intros Hnew. now constructor.
Qed.

End AnyAnswer.

(** ** The rendered list *)

Section Render.
Context {Store : Type} `{Backend Store}.
Implicit Types (st : AppState) (w : World Store).

Lemma map_from_rows (k : Z) (rows : list Todo.t) :
  exists rs,
    map_from renderRow k (Some <$> rows) = Some rs /\
    length rs = length rows /\
    forall (j : nat) todo,
      rows !! j = Some todo ->
      rs !! j = renderRow (Some todo) (k + Z.of_nat j).
Proof.
  revert k. induction rows as [|r rows IH]; intros k.
  - exists []. repeat split. intros j todo Hj. discriminate.
  - destruct (IH (k + 1)) as (rs & Hrs & Hlen & Hlook).
    rewrite fmap_cons. cbn [map_from renderRow]. rewrite Hrs.
    eexists. split; [reflexivity|]. split; [simpl; congruence|].
    intros [|j] todo Hj.
    + injection Hj as ->. simpl. now rewrite Z.add_0_r.
    + replace (k + Z.of_nat (S j)) with (k + 1 + Z.of_nat j) by lia.
      simpl in Hj. exact (Hlook _ _ Hj).
Qed.

Lemma map_from_typed (k : Z) (l : list (option Todo.t)) rs :
  map_from renderRow k l = Some rs -> well_typed l.
Proof.
  revert k rs. induction l as [|slot l IH]; intros k rs Hrs; [constructor|].
  simpl in Hrs. destruct slot as [todo|]; [|discriminate].
  simpl in Hrs. destruct (map_from renderRow (k + 1) l) as [rs'|] eqn:Hl;
    [|discriminate].
  constructor; [now exists todo|]. eapply IH, Hl.
Qed.

Lemma render_typed st : is_Some (render st) <-> well_typed (todos st).
Proof.
  unfold render, renderList. split.
  - intros [v Hv]. destruct (decide (length (todos st) = 0%nat)) as [H0|_].
    + destruct (todos st); [constructor|discriminate].
    + destruct (map_from renderRow 0 (todos st)) as [rs|] eqn:Hrs;
        [|discriminate].
      eapply map_from_typed, Hrs.
  - intros Hty. destruct (decide _); [eauto|].
    destruct (well_typed_rows _ Hty) as [rows ->].
    destruct (map_from_rows 0 rows) as (rs & -> & _). eauto.
Qed.

Lemma render_rows st v rs :
  render st = Some v -> taskList v = Rows rs ->
  exists rows,
    todos st = Some <$> rows /\ length rs = length rows /\
    forall (j : nat) todo,
      rows !! j = Some todo ->
      rs !! j = renderRow (Some todo) (Z.of_nat j).
Proof.
  intros Hv Hl.
  assert (Hty : well_typed (todos st)) by (apply render_typed; eauto).
  destruct (well_typed_rows _ Hty) as [rows Hrows]. exists rows.
  split; [assumption|].
  unfold render, renderList in Hv. rewrite Hrows in Hv.
  destruct (map_from_rows 0 rows) as (rs' & Hrs & Hlen & Hlook).
  rewrite Hrs in Hv. destruct (decide _); injection Hv as <-;
    simpl in Hl; [discriminate|].
  injection Hl as <-. split; [assumption|].
  intros j todo Hj. now rewrite (Hlook _ _ Hj).
Qed.

(** X12.  The render throws exactly when some slot of the list holds
    [undefined].  Otherwise it shows "No tasks yet" exactly when the list
    is empty, and else one entry per record, in the order of the list:
    keyed by the record's [id], titled by its text, struck through when
    it is completed, with a description paragraph only when the
    description is not empty, and with click handlers that pass the
    entry's own position. *)
Theorem render_shows_the_list st :
  (render st = None <-> ~ well_typed (todos st)) /\
  forall v, render st = Some v ->
    (taskList v = NoTasksYet <-> todos st = []) /\
    forall rs, taskList v = Rows rs ->
      length rs = length (todos st) /\
      forall (j : nat) r, rs !! j = Some r ->
        exists todo,
          todos st !! j = Some (Some todo) /\
          key r = Todo.id todo /\ title r = Todo.text todo /\
          struck r = Todo.completed todo /\
          (details r = None <-> Todo.description todo = []) /\
          (forall d, details r = Some d -> d = Todo.description todo) /\
          onTitleClick r = Task (Toggle (Z.of_nat j)) /\
          onDeleteClick r = Task (Remove (Z.of_nat j)).
Proof.
  split.
  - rewrite <- render_typed. destruct (render st) as [v|]; split.
    + discriminate.
    + intros Hn. exfalso. apply Hn. eauto.
    + intros _ [v Hv]. discriminate.
    + reflexivity.
  - intros v Hv. split.
    + unfold render, renderList in Hv.
      destruct (decide (length (todos st) = 0%nat)) as [H0|Hn].
      * injection Hv as <-. simpl. split; [|reflexivity].
        intros _. now destruct (todos st).
      * destruct (map_from renderRow 0 (todos st)); [|discriminate].
        injection Hv as <-. simpl. split; [discriminate|].
        intros Hnil. rewrite Hnil in Hn. now contradiction Hn.
    + intros rs Hl.
      destruct (render_rows _ _ _ Hv Hl) as (rows & Hrows & Hlen & Hlook).
      split; [rewrite Hrows, length_fmap; assumption|].
      intros j r Hj.
      destruct (lookup_lt_is_Some_2 rows j) as [todo Htodo].
      { rewrite <- Hlen. eapply lookup_lt_Some, Hj. }
      rewrite (Hlook _ _ Htodo) in Hj. injection Hj as <-.
      exists todo. simpl.
      split; [rewrite Hrows, list_lookup_fmap, Htodo; reflexivity|].
      repeat split; try reflexivity;
        destruct (decide (Todo.description todo = [])); try congruence;
        try discriminate.
Qed.

(** X13.  The click handlers of a rendered entry never throw: run in the
    state that was rendered, the title's handler awaits the update that
    flips the shown completion of the record with the entry's key, and
    the Delete button's handler awaits the deletion of that record. *)
Theorem rendered_handlers_find_their_record st w v rs r :
  render st = Some v -> taskList v = Rows rs -> r ∈ rs ->
  (exists index answer,
     onTitleClick r = Task (Toggle index) /\
     fst (run (toggleComplete st index) w) <> Uncaught /\
     trace (snd (dispatch (st, w) (onTitleClick r))) =
       trace w ++ [(Update (negb (struck r)) (key r), answer)]) /\
  (exists index answer,
     onDeleteClick r = Task (Remove index) /\
     fst (run (removeTodo st index) w) <> Uncaught /\
     trace (snd (dispatch (st, w) (onDeleteClick r))) =
       trace w ++ [(Delete (key r), answer)]).
Proof.
  intros Hv Hl Hin.
  destruct (render_rows _ _ _ Hv Hl) as (rows & Hrows & Hlen & Hlook).
  apply list_elem_of_lookup in Hin as [j Hj].
  destruct (lookup_lt_is_Some_2 rows j) as [todo Htodo].
  { rewrite <- Hlen. eapply lookup_lt_Some, Hj. }
  rewrite (Hlook _ _ Htodo) in Hj. injection Hj as <-.
  assert (Hat : at_index (todos st) (Z.of_nat j) = Some todo).
  { rewrite Hrows. apply at_index_fmap. split; [lia|].
    now rewrite Nat2Z.id. }
  split; exists (Z.of_nat j); simpl onTitleClick; simpl onDeleteClick;
    unfold dispatch; rewrite perform_shape; unfold request; rewrite Hat.
  - rewrite (run_toggleComplete _ _ _ _ Hat). cbv zeta.
    destruct (respond _ _) as [answer s]. exists answer.
    split; [reflexivity|]. now destruct answer.
  - rewrite (run_removeTodo _ _ _ _ Hat). cbv zeta.
    destruct (respond _ _) as [answer s]. exists answer.
    split; [reflexivity|]. now destruct answer.
Qed.

(** X16.  A Toggle that the store reports done without returning a row
    leaves [undefined] at the position, inside the list.  From then on
    the render throws, and so does every Toggle or Delete at that
    position, before awaiting anything. *)
Theorem toggle_without_row_breaks st w index q :
  trace (snd (perform (Toggle index) (st, w))) =
    trace w ++ [(q, Success [])] ->
  0 <= index <
    Z.of_nat (length (todos (fst (perform (Toggle index) (st, w))))) /\
  at_index (todos (fst (perform (Toggle index) (st, w)))) index = None /\
  render (fst (perform (Toggle index) (st, w))) = None /\
  forall w',
    run (toggleComplete (fst (perform (Toggle index) (st, w))) index) w' =
      (Uncaught, w') /\
    run (removeTodo (fst (perform (Toggle index) (st, w))) index) w' =
      (Uncaught, w').
Proof.
  intros Htr. rewrite perform_shape in Htr |- *. unfold request in *.
  destruct (at_index (todos st) index) as [todo|] eqn:Hat;
    [|now apply trace_grows_not in Htr].
  pose proof (at_index_in_bounds _ _ _ Hat) as Hin.
  destruct (respond _ _) as [[m|data] s]; simpl in Htr;
    apply trace_last in Htr; [discriminate|].
  injection Htr as <- ->. simpl.
  rewrite array_set_inside by assumption. simpl.
  assert (Hnone : at_index (<[Z.to_nat index := None]> (todos st)) index
                  = None).
  { unfold at_index. destruct (Z.leb_spec 0 index); [|reflexivity].
    rewrite list_lookup_insert_eq by lia. reflexivity. }
  split; [rewrite length_insert; assumption|]. split; [assumption|]. split.
  - destruct (render _) as [v|] eqn:Hv; [|reflexivity].
    assert (Hty : well_typed (<[Z.to_nat index := None]> (todos st)))
      by (apply (render_typed (setTodos _ st)); eauto).
    apply (Forall_lookup_1 _ _ (Z.to_nat index) None) in Hty.
    + now destruct Hty.
    + apply list_lookup_insert_eq. lia.
  - intros w'. split.
    + now apply run_toggleComplete_undefined.
    + now apply run_removeTodo_undefined.
Qed.

End Render.

(** ** The list as a copy of the reference table *)

Section Mirror.
Implicit Types (st : AppState) (w : World Table.t) (rows l : list Todo.t).

#[local] Instance by_id_total' ascending : Total (Table.by_id ascending).
Proof. intros a b. unfold Table.by_id. destruct ascending; lia. Qed.

#[local] Instance by_id_trans' ascending : Transitive (Table.by_id ascending).
Proof. intros a b c. unfold Table.by_id. destruct ascending; lia. Qed.









Lemma List_filter_sublist (f : Todo.t -> bool) l :
  List.filter f l `sublist_of` l.
Proof.
  induction l as [|x l IH]; simpl; [constructor|].
  destruct (f x); now constructor.
Qed.











End Mirror.

(** ** The further theorems at the sample data *)

Example render_draft : render Sample.draft = Some Scene.view.
Proof. reflexivity. Qed.

Example visit_ends :
  let st := fst (session Scene.visit (initial, Sample.online)) in
  ids (todos st) = [3; 2] /\ stopwatchTime st = 2 /\ isRunning st = false /\
  input st = [].
Proof. repeat split. Qed.

Lemma stopwatch_within_seconds_fired_witness :
  0 <= stopwatchTime initial /\
  0 <= stopwatchTime (fst (session Scene.visit (initial, Sample.online))) <=
    stopwatchTime initial + seconds_fired Scene.visit.
Proof.
  assert (H0 : 0 <= stopwatchTime initial) by (simpl; lia).
  split; [exact H0|].
  exact (stopwatch_within_seconds_fired Scene.visit initial Sample.online H0).
Defined.

Lemma records_stay_records_witness :
  well_typed (todos Sample.draft) /\
  (forall index q, Toggle 0 = Toggle index ->
     trace (snd (perform (Toggle 0) (Sample.draft, Sample.online))) <>
       trace Sample.online ++ [(q, Success [])]) /\
  well_typed (todos (fst (perform (Toggle 0) (Sample.draft, Sample.online)))).
Proof.
  assert (Hty : well_typed (todos Sample.draft))
    by (repeat constructor; eexists; reflexivity).
  assert (Hrow : forall index q, Toggle 0 = Toggle index ->
            trace (snd (perform (Toggle 0) (Sample.draft, Sample.online))) <>
              trace Sample.online ++ [(q, Success [])])
    by (intros index q _ Heq; vm_compute in Heq; discriminate Heq).
  split; [exact Hty|]. split; [exact Hrow|].
  exact (records_stay_records (Toggle 0) Sample.draft Sample.online Hty Hrow).
Defined.

Lemma order_kept_by_toggle_and_delete_witness :
  well_typed (todos Sample.draft) /\
  newest_first (todos Sample.draft) /\
  (Remove 1 <> Load /\ Remove 1 <> Create) /\
  (forall q data,
     trace (snd (perform (Remove 1) (Sample.draft, Sample.online))) =
       trace Sample.online ++ [(q, Success data)] ->
     echoes q data) /\
  well_typed (todos (fst (perform (Remove 1) (Sample.draft, Sample.online)))) /\
  newest_first
    (todos (fst (perform (Remove 1) (Sample.draft, Sample.online)))) /\
  (forall index, Remove 1 = Toggle index ->
     ids (todos (fst (perform (Remove 1) (Sample.draft, Sample.online)))) =
       ids (todos Sample.draft)) /\
  (forall index todo q data,
     Remove 1 = Remove index ->
     at_index (todos Sample.draft) index = Some todo ->
     trace (snd (perform (Remove 1) (Sample.draft, Sample.online))) =
       trace Sample.online ++ [(q, Success data)] ->
     ids (todos (fst (perform (Remove 1) (Sample.draft, Sample.online)))) =
       delete (Z.to_nat index) (ids (todos Sample.draft)) /\
     Todo.id todo ∉
       ids (todos (fst (perform (Remove 1) (Sample.draft, Sample.online))))).
Proof.
  assert (Hty : well_typed (todos Sample.draft))
    by (repeat constructor; eexists; reflexivity).
  assert (Hsorted : newest_first (todos Sample.draft))
    by (repeat constructor; lia).
  assert (Hkind : Remove 1 <> Load /\ Remove 1 <> Create)
    by (split; discriminate).
  assert (Hecho : forall q data,
            trace (snd (perform (Remove 1) (Sample.draft, Sample.online))) =
              trace Sample.online ++ [(q, Success data)] ->
            echoes q data)
    by (intros q data Heq; vm_compute in Heq; injection Heq as <- <-;
        exact I).
  split; [exact Hty|]. split; [exact Hsorted|]. split; [exact Hkind|].
  split; [exact Hecho|].
  exact (order_kept_by_toggle_and_delete (Remove 1) Sample.draft Sample.online
           Hty Hsorted Hkind Hecho).
Defined.

Lemma order_kept_by_create_witness :
  well_typed (todos Sample.draft) /\
  newest_first (todos Sample.draft) /\
  trace (snd (perform Create (Sample.draft, Sample.online))) =
    trace Sample.online ++
    [(Insert [new_row Sample.draft (clock Sample.online)],
      Success [Sample.mom])] /\
  echoes (Insert [new_row Sample.draft (clock Sample.online)]) [Sample.mom] /\
  exists row,
    [Sample.mom] = [row] /\
    ids (todos (fst (perform Create (Sample.draft, Sample.online)))) =
      Todo.id row :: ids (todos Sample.draft) /\
    well_typed (todos (fst (perform Create (Sample.draft, Sample.online)))) /\
    (Forall (fun k => k < Todo.id row) (ids (todos Sample.draft)) ->
     newest_first
       (todos (fst (perform Create (Sample.draft, Sample.online))))).
Proof.
  assert (Hty : well_typed (todos Sample.draft))
    by (repeat constructor; eexists; reflexivity).
  assert (Hsorted : newest_first (todos Sample.draft))
    by (repeat constructor; lia).
  assert (Htr : trace (snd (perform Create (Sample.draft, Sample.online))) =
                  trace Sample.online ++
                  [(Insert [new_row Sample.draft (clock Sample.online)],
                    Success [Sample.mom])])
    by reflexivity.
  assert (Hecho : echoes (Insert [new_row Sample.draft (clock Sample.online)])
                    [Sample.mom])
    by (repeat constructor).
  split; [exact Hty|]. split; [exact Hsorted|]. split; [exact Htr|].
  split; [exact Hecho|].
  exact (order_kept_by_create _ _ _ _ Hty Hsorted Htr Hecho).
Defined.

Lemma rendered_handlers_find_their_record_witness :
  render Sample.draft = Some Scene.view /\
  taskList Scene.view = Rows [Scene.milk_row; Scene.bread_row] /\
  Scene.bread_row ∈ [Scene.milk_row; Scene.bread_row] /\
  (exists index answer,
     onTitleClick Scene.bread_row = Task (Toggle index) /\
     fst (run (toggleComplete Sample.draft index) Sample.online) <> Uncaught /\
     trace (snd (dispatch (Sample.draft, Sample.online)
                   (onTitleClick Scene.bread_row))) =
       trace Sample.online ++
       [(Update (negb (struck Scene.bread_row)) (key Scene.bread_row),
         answer)]) /\
  (exists index answer,
     onDeleteClick Scene.bread_row = Task (Remove index) /\
     fst (run (removeTodo Sample.draft index) Sample.online) <> Uncaught /\
     trace (snd (dispatch (Sample.draft, Sample.online)
                   (onDeleteClick Scene.bread_row))) =
       trace Sample.online ++ [(Delete (key Scene.bread_row), answer)]).
Proof.
  assert (Hv : render Sample.draft = Some Scene.view) by reflexivity.
  assert (Hl : taskList Scene.view = Rows [Scene.milk_row; Scene.bread_row])
    by reflexivity.
  assert (Hin : Scene.bread_row ∈ [Scene.milk_row; Scene.bread_row])
    by (right; left).
  split; [exact Hv|]. split; [exact Hl|]. split; [exact Hin|].
  exact (rendered_handlers_find_their_record Sample.draft Sample.online
           _ _ _ Hv Hl Hin).
Defined.

Lemma toggle_without_row_breaks_witness :
  trace (snd (perform (Toggle 0) (Sample.draft, Scene.gone))) =
    trace Scene.gone ++ [(Update true 2, Success [])] /\
  0 <= 0 < Z.of_nat
             (length (todos (fst (perform (Toggle 0)
                                    (Sample.draft, Scene.gone))))) /\
  at_index (todos (fst (perform (Toggle 0) (Sample.draft, Scene.gone)))) 0
    = None /\
  render (fst (perform (Toggle 0) (Sample.draft, Scene.gone))) = None /\
  forall w',
    run (toggleComplete (fst (perform (Toggle 0) (Sample.draft, Scene.gone)))
           0) w' = (Uncaught, w') /\
    run (removeTodo (fst (perform (Toggle 0) (Sample.draft, Scene.gone)))
           0) w' = (Uncaught, w').
Proof.
  assert (Htr : trace (snd (perform (Toggle 0) (Sample.draft, Scene.gone))) =
                  trace Scene.gone ++ [(Update true 2, Success [])])
    by reflexivity.
  split; [exact Htr|].
  exact (toggle_without_row_breaks Sample.draft Scene.gone 0 _ Htr).
Defined.


(** ** Sessions against any store *)

Section Sessions.
Context {Store : Type} `{Backend Store}.
Implicit Types (st : AppState) (w : World Store).

Lemma request_label_of (a : Action) st now q :
  request a st now = Some q -> request_label q = error_label a.
Proof.
  destruct a as [| |index|index]; simpl.
  - now intros [= <-].
  - destruct (decide _); [now intros [= <-]|discriminate].
  - destruct (at_index _ _); [now intros [= <-]|discriminate].
  - destruct (at_index _ _); [now intros [= <-]|discriminate].
Qed.

Lemma dispatch_console (e : Event) st w :
  exists new,
    trace (snd (dispatch (st, w) e)) = trace w ++ new /\
    console (snd (dispatch (st, w) e)) = console w ++ failures new.
Proof.
  destruct e as [v|v| | | | | |a];
    try (exists []; simpl; now rewrite !app_nil_r).
  unfold dispatch. rewrite perform_shape.
  destruct (request a st (clock w)) as [q|] eqn:Hq;
    [|exists []; simpl; now rewrite !app_nil_r].
  destruct (respond q (remote w)) as [[m|data] s].
  - exists [(q, Failure m)]. simpl.
    now rewrite (request_label_of _ _ _ _ Hq).
  - exists [(q, Success data)]. simpl. now rewrite app_nil_r.
Qed.

(** X18.  Over any sequence of events and against any store, the lines
    written to the console are exactly the failed queries, in the order
    they failed, each under the label of its kind with the message of
    the error; a query answered with rows writes nothing, and nothing is
    written without a query. *)
Theorem console_holds_the_failures (es : list Event) st w :
  exists new,
    trace (snd (session es (st, w))) = trace w ++ new /\
    console (snd (session es (st, w))) = console w ++ failures new.
Proof.
  revert st w. induction es as [|e es IH]; intros st w.
  - exists []. simpl. now rewrite !app_nil_r.
  - rewrite session_cons.
    destruct (dispatch_console e st w) as (new1 & Ht1 & Hc1).
    destruct (dispatch (st, w) e) as [st1 w1]. simpl in Ht1, Hc1.
    destruct (IH st1 w1) as (new2 & Ht2 & Hc2).
    exists (new1 ++ new2). rewrite Ht2, Hc2, Ht1, Hc1.
    unfold failures. now rewrite omap_app, !app_assoc.
Qed.

(** X19.  The task list is never changed ahead of the store: an event
    after which the list differs has awaited a query that the store
    answered with rows. *)
Theorem list_changes_only_on_success (e : Event) st w :
  todos (fst (dispatch (st, w) e)) <> todos st ->
  exists a q data,
    e = Task a /\
    trace (snd (dispatch (st, w) e)) = trace w ++ [(q, Success data)].
Proof.
  intros Hchanged. destruct e as [v|v| | | | | |a];
    try (now contradiction Hchanged).
  - contradiction Hchanged. unfold dispatch, tick. simpl.
    now destruct (isRunning st).
  - exists a. unfold dispatch in *. rewrite perform_shape in Hchanged |- *.
    destruct (request a st (clock w)) as [q|];
      [|now contradiction Hchanged].
    destruct (respond q (remote w)) as [[m|data] s];
      [now contradiction Hchanged|].
    now exists q, data.
Qed.

Lemma dispatch_stopped (e : Event) st w :
  isRunning st = false -> e <> PressStart ->
  isRunning (fst (dispatch (st, w) e)) = false /\
  (e = PressReset -> stopwatchTime (fst (dispatch (st, w) e)) = 0) /\
  (e <> PressReset ->
   stopwatchTime (fst (dispatch (st, w) e)) = stopwatchTime st).
Proof.
  intros Hstop Hne.
  destruct e as [v|v| | | | | |a]; try (now repeat split).
  - unfold dispatch, tick. simpl. rewrite Hstop. now repeat split.
  - destruct (perform_frame a st w) as (_ & Ht & Hr & _).
    unfold dispatch. rewrite Ht, Hr. now repeat split.
Qed.

Lemma reset_or_not (e : Event) : e = PressReset \/ e <> PressReset.
Proof. destruct e; (now left) || (right; discriminate). Qed.

Lemma stays_zero (es : list Event) st w :
  isRunning st = false -> stopwatchTime st = 0 -> PressStart ∉ es ->
  stopwatchTime (fst (session es (st, w))) = 0.
Proof.
  revert st w. induction es as [|e es IH]; intros st w Hstop H0 Hno;
    [assumption|].
  apply not_elem_of_cons in Hno as [Hne Hno]. rewrite session_cons.
  destruct (dispatch_stopped e st w Hstop) as (Hstop1 & Hr1 & Hk1);
    [congruence|].
  destruct (dispatch (st, w) e) as [st1 w1]. simpl in Hstop1, Hr1, Hk1.
  apply IH; [assumption| |assumption].
  destruct (reset_or_not e) as [He|He]; [now apply Hr1|].
  now rewrite Hk1.
Qed.

(** X17.  A stopped stopwatch stays stopped, whatever happens, until
    Start is pressed; until then its reading stays what it was, or is
    zero once Reset has been pressed. *)
Theorem stopped_until_start (es : list Event) st w :
  isRunning st = false -> PressStart ∉ es ->
  isRunning (fst (session es (st, w))) = false /\
  (PressReset ∈ es -> stopwatchTime (fst (session es (st, w))) = 0) /\
  (PressReset ∉ es ->
   stopwatchTime (fst (session es (st, w))) = stopwatchTime st).
Proof.
  revert st w. induction es as [|e es IH]; intros st w Hstop Hno.
  - split; [assumption|]. split; [|reflexivity].
    intros Hin. now apply elem_of_nil in Hin.
  - apply not_elem_of_cons in Hno as [Hne Hno]. rewrite session_cons.
    destruct (dispatch_stopped e st w Hstop) as (Hstop1 & Hr1 & Hk1);
      [congruence|].
    destruct (dispatch (st, w) e) as [st1 w1]. simpl in Hstop1, Hr1, Hk1.
    destruct (IH st1 w1 Hstop1 Hno) as (Hstop2 & Hr2 & Hk2).
    split; [assumption|]. split.
    + intros Hin. apply elem_of_cons in Hin as [<-|Hin]; [|now apply Hr2].
      apply stays_zero; auto.
    + intros Hnin. apply not_elem_of_cons in Hnin as [Hne' Hnin].
      rewrite Hk2 by assumption. apply Hk1. congruence.
Qed.

End Sessions.

Lemma list_changes_only_on_success_witness :
  todos (fst (dispatch (Sample.draft, Sample.online) (Task (Remove 0)))) <>
    todos Sample.draft /\
  exists a q data,
    Task (Remove 0) = Task a /\
    trace (snd (dispatch (Sample.draft, Sample.online) (Task (Remove 0)))) =
      trace Sample.online ++ [(q, Success data)].
Proof.
  assert (Hch : todos (fst (dispatch (Sample.draft, Sample.online)
                              (Task (Remove 0)))) <> todos Sample.draft)
    by (vm_compute; discriminate).
  split; [exact Hch|].
  exact (list_changes_only_on_success (Task (Remove 0)) Sample.draft
           Sample.online Hch).
Defined.

Lemma stopped_until_start_witness :
  isRunning Sample.draft = false /\
  (PressStart ∉ [Second; Task Create; PressReset; Second]) /\
  isRunning (fst (session [Second; Task Create; PressReset; Second]
                    (Sample.draft, Sample.online))) = false /\
  (PressReset ∈ [Second; Task Create; PressReset; Second] ->
   stopwatchTime (fst (session [Second; Task Create; PressReset; Second]
                         (Sample.draft, Sample.online))) = 0) /\
  (PressReset ∉ [Second; Task Create; PressReset; Second] ->
   stopwatchTime (fst (session [Second; Task Create; PressReset; Second]
                         (Sample.draft, Sample.online))) =
     stopwatchTime Sample.draft).
Proof.
  assert (Hstop : isRunning Sample.draft = false) by reflexivity.
  assert (Hno : PressStart ∉ [Second; Task Create; PressReset; Second]).
  { intros Hin. repeat (apply elem_of_cons in Hin as [Hin|Hin];
                        [discriminate Hin|]).
    now apply elem_of_nil in Hin. }
  split; [exact Hstop|]. split; [exact Hno|].
  exact (stopped_until_start _ Sample.draft Sample.online Hstop Hno).
Defined.
